(** * Orbitalink transceiver: differential line code and packet extractor

    A shallow embedding of the two pieces of stream logic of the link:

    - the modulus-4 differential encoder / decoder that [PacketTX] and
      [PacketRX] insert around the QPSK mapper (Transmission.py line 38,
      Receiver.py line 101);
    - [PacketExtractor.general_work] (Receiver.py lines 13-58), the two-state
      block that slices fixed-length payloads out of a tagged byte stream.

    Python integers are [Z]; numpy byte buffers are [list byte]; the block
    object [self] is a record threaded through every call. *)

From Stdlib Require Import String Ascii ZArith List Lia Bool Sorted Permutation.
From Stdlib Require Import Strings.Byte.
Import ListNotations.
Local Open Scope Z_scope.

(* ------------------------------------------------------------------ *)
(** * Python helpers *)

Module Py.

(** How the evaluation of a call ends: with a value, or with an exception
    (named by its class). *)
Inductive outcome (A : Type) : Type :=
| Returns (a : A)
| Raises (exn : string).
Arguments Returns {A} a.
Arguments Raises {A} exn.

(** [len(l)] as a Python integer. *)
Definition len {A : Type} (l : list A) : Z := Z.of_nat (List.length l).

(** Python's three-argument [min]. *)
Definition min3 (a b c : Z) : Z := Z.min a (Z.min b c).

(** Clamping of one bound of a slice of a sequence of length [n]:
    negative bounds count from the end, everything is cut to [0, n]. *)
Definition bound (n i : Z) : Z :=
  if i <? 0 then Z.max 0 (i + n) else Z.min i n.

(** [l[lo:hi]]. *)
Definition slice {A : Type} (l : list A) (lo hi : Z) : list A :=
  let lo' := bound (len l) lo in
  let hi' := bound (len l) hi in
  firstn (Z.to_nat (hi' - lo')) (skipn (Z.to_nat lo') l).

(** [l[lo:hi] = src] on a numpy array, for a source of the same shape as
    the target slice (lemma [copy_shapes_agree] below shows the block
    only ever performs such assignments). *)
Definition slice_assign {A : Type} (l : list A) (lo hi : Z) (src : list A)
  : list A :=
  let lo' := bound (len l) lo in
  let hi' := Z.max lo' (bound (len l) hi) in
  firstn (Z.to_nat lo') l ++ src ++ skipn (Z.to_nat hi') l.

End Py.

(* ------------------------------------------------------------------ *)
(** * The differential line code *)

Module LineCodec.

(** The codec object: its modulus (alphabet size) and the running
    previous-symbol register. *)
Record t : Type := mk { modulus : Z; s_prev : Z }.

(** Modelled from the spec: [digital.diff_encoder_bb(modulus)] is a block
    of the signal-processing runtime, whose code is not part of the
    sources; only its instantiation with modulus 4 is.  Section 3 and 4.1:
    the register is reset to 0 at stream start. *)
Definition diff_encoder_bb (modulus : Z) : t := mk modulus 0.

(** Modelled from the spec: [digital.diff_decoder_bb(modulus)], absent
    from the sources like the encoder; same initial register. *)
Definition diff_decoder_bb (modulus : Z) : t := mk modulus 0.

(** Modelled from the spec: the encoder step of the absent block
    [diff_encoder_bb] (section 4.1): [s_cur = (s_prev + d) mod M], emit
    [s_cur], and [s_prev <- s_cur]. *)
Definition encode (c : t) (b : Z) : Z * t :=
  let d := b in
  let s_cur := (s_prev c + d) mod modulus c in
  (s_cur, mk (modulus c) s_cur).

(** Modelled from the spec: the decoder step of the absent block
    [diff_decoder_bb] (section 4.1): [d = (s_cur - s_prev) mod M], emit
    [d], and [s_prev <- s_cur]. *)
Definition decode (c : t) (s_cur : Z) : Z * t :=
  let d := (s_cur - s_prev c) mod modulus c in
  (d, mk (modulus c) s_cur).

(** A codec step applied to a whole stream, the state persisting from one
    item to the next. *)
Fixpoint stream (step : t -> Z -> Z * t) (c : t) (xs : list Z) : list Z :=
  match xs with
  | [] => []
  | x :: xs' => let (y, c') := step c x in y :: stream step c' xs'
  end.

(** The channel's constant phase rotation of one symbol index. *)
Definition rotate (M r s : Z) : Z := (s + r) mod M.

End LineCodec.

(** The instances the two flowgraphs build. *)
Module PacketTX.
(** [self.diff_encoder = digital.diff_encoder_bb(4)] *)
Definition diff_encoder : LineCodec.t := LineCodec.diff_encoder_bb 4.
End PacketTX.

(* ------------------------------------------------------------------ *)
(** * The packet extractor *)

(** A stream tag: absolute item offset and key (a PMT symbol). *)
Record tag_t : Type := mk_tag { offset : Z; key : string }.

(** What the runtime exposes to a block about its input 0 during one call:
    the absolute count of items consumed so far, and the tags attached to
    the stream. *)
Record gr_input : Type := mk_input { nitems_read : Z; stream_tags : list tag_t }.

(** Modelled from the spec: [get_tags_in_window] is a method of the
    runtime's block base class, which is not part of the sources.  Section
    4.2: a call receives the events whose offset falls within the window's
    absolute range, in stream order; for
    [self.get_tags_in_window(0, rel_start, rel_end)] that range is
    [nitems_read + rel_start, nitems_read + rel_end). *)
Definition get_tags_in_window (inp : gr_input) (rel_start rel_end : Z)
  : list tag_t :=
  filter (fun tag => (nitems_read inp + rel_start <=? offset tag)
                     && (offset tag <? nitems_read inp + rel_end))
         (stream_tags inp).

Definition EXTRACT_LEN_BYTES : Z := 256.

Module PacketExtractor.

Inductive State : Type := SEARCHING | COPYING.

Definition State_eqb (a b : State) : bool :=
  match a, b with
  | SEARCHING, SEARCHING | COPYING, COPYING => true
  | _, _ => false
  end.

(** The attributes of [self]. *)
Record t : Type := mk {
  packet_len : Z;
  start_key : string;
  state : State;
  items_to_copy : Z
}.

Definition set_state (self : t) (s : State) : t :=
  mk (packet_len self) (start_key self) s (items_to_copy self).

Definition set_items_to_copy (self : t) (n : Z) : t :=
  mk (packet_len self) (start_key self) (state self) n.

(** [__init__(self, packet_len_bytes)]: stores its argument unchecked. *)
Definition __init__ (packet_len_bytes : Z) : t :=
  mk packet_len_bytes "packet_start" SEARCHING 0.

(** The constructor call [PacketExtractor(packet_len_bytes)]: [__init__]
    has no [raise] and no test on its argument, so the call returns. *)
Definition construct (packet_len_bytes : Z) : Py.outcome t :=
  Py.Returns (__init__ packet_len_bytes).

(** What one call of [general_work] leaves behind: the updated block, the
    output buffer, the arguments of its [consume] and [produce] calls
    (0 when not called) and the value it returns. *)
Record work : Type := mk_work {
  self' : t;
  out0' : list byte;
  consumed : Z;
  produced : Z;
  returned : Z
}.

(** Lines 29-38: the [for tag in tags] loop with its [break].  The
    timestamped [print] changes nothing the block reads and is left out. *)
Definition search (self : t) (inp : gr_input) (tags : list tag_t)
           (read_ptr : Z) : t * Z :=
  match find (fun tag => String.eqb (key tag) (start_key self)) tags with
  | Some tag =>
      let self1 := set_state self COPYING in
      let self2 := set_items_to_copy self1 (packet_len self1) in
      let tag_pos := offset tag - nitems_read inp in
      (self2, tag_pos)
  | None => (self, read_ptr)
  end.

(** Lines 44-54: the body of [if self.state == 'COPYING']. *)
Definition copy (self : t) (in0 out0 : list byte) (read_ptr write_ptr : Z)
  : t * list byte * Z * Z :=
  let items_available := Py.len in0 - read_ptr in
  let items_to_process :=
    Py.min3 items_available (items_to_copy self) (Py.len out0 - write_ptr) in
  let '(self1, out1, read_ptr1, write_ptr1) :=
    if 0 <? items_to_process then
      (set_items_to_copy self (items_to_copy self - items_to_process),
       Py.slice_assign out0 write_ptr (write_ptr + items_to_process)
         (Py.slice in0 read_ptr (read_ptr + items_to_process)),
       read_ptr + items_to_process,
       write_ptr + items_to_process)
    else (self, out0, read_ptr, write_ptr) in
  let self2 :=
    if items_to_copy self1 =? 0 then set_state self1 SEARCHING else self1 in
  (self2, out1, read_ptr1, write_ptr1).

(** [general_work(self, input_items, output_items)] with
    [in0 = input_items[0]] and [out0 = output_items[0]]. *)
Definition general_work (self : t) (inp : gr_input) (in0 out0 : list byte)
  : work :=
  let read_ptr := 0 in
  let write_ptr := 0 in
  let tags := get_tags_in_window inp 0 (Py.len in0) in
  let '(self1, read_ptr1) :=
    match state self with
    | SEARCHING => search self inp tags read_ptr
    | COPYING => (self, read_ptr)
    end in
  if State_eqb (state self) SEARCHING && State_eqb (state self1) SEARCHING
  then
    (* self.consume(0, len(in0)); return 0 *)
    mk_work self1 out0 (Py.len in0) 0 0
  else
    let '(self2, out1, read_ptr2, write_ptr2) :=
      match state self1 with
      | COPYING => copy self1 in0 out0 read_ptr1 write_ptr
      | SEARCHING => (self1, out0, read_ptr1, write_ptr)
      end in
    (* self.consume(0, read_ptr); self.produce(0, write_ptr);
       return len(output_items[0]) *)
    mk_work self2 out1 read_ptr2 write_ptr2 (Py.len out0).

(** The start tag the search loop of a call stops at, if any. *)
Definition first_start (self : t) (inp : gr_input) (in0 : list byte)
  : option tag_t :=
  find (fun tag => String.eqb (key tag) (start_key self))
       (get_tags_in_window inp 0 (Py.len in0)).

(** The number of bytes the copy step of a call moves when its cursor is
    [read_ptr] and its write cursor 0. *)
Definition copied (self : t) (in0 out0 : list byte) (read_ptr : Z) : Z :=
  Z.max 0 (Py.min3 (Py.len in0 - read_ptr) (items_to_copy self)
                   (Py.len out0)).

(** The state invariant: the counter stays within the packet length and
    is positive exactly while copying. *)
Definition Invariant (self : t) : Prop :=
  (0 <= items_to_copy self <= packet_len self) /\
  (state self = COPYING <-> 0 < items_to_copy self).

(** States reachable from a freshly constructed block by calls of
    [general_work] on arbitrary windows, tag sets and output buffers. *)
Inductive reachable (packet_len_bytes : Z) : t -> Prop :=
| reach_init : reachable packet_len_bytes (__init__ packet_len_bytes)
| reach_work : forall self inp in0 out0,
    reachable packet_len_bytes self ->
    reachable packet_len_bytes (self' (general_work self inp in0 out0)).

End PacketExtractor.

(** The receive flowgraph's instances. *)
Module PacketRX.
(** [self.diff_decoder = digital.diff_decoder_bb(4)] *)
Definition diff_decoder : LineCodec.t := LineCodec.diff_decoder_bb 4.
(** [self.packet_extractor = PacketExtractor(EXTRACT_LEN_BYTES)] *)
Definition packet_extractor : Py.outcome PacketExtractor.t :=
  PacketExtractor.construct EXTRACT_LEN_BYTES.
End PacketRX.

(* ------------------------------------------------------------------ *)
(** * The calls the runtime makes *)

Module Trace.

(** What decides the calls to come, the block itself and the absolute read
    cursor of its input, and with it the bytes the calls so far have
    written.  What the runtime hands on downstream is not in this record:
    [Scheduler.flow] below adds it. *)
Record flow : Type := mk {
  blk : PacketExtractor.t;
  nread : Z;
  written : list byte
}.

Definition start (packet_len_bytes : Z) : flow :=
  mk (PacketExtractor.__init__ packet_len_bytes) 0 [].

Section Delivery.

(** The whole input stream, its tags, and the size of the output buffer
    handed to every call. *)
Variable stream : list byte.
Variable tags : list tag_t.
Variable capacity : nat.

(** Modelled from the spec: the scheduler that calls the block is the
    runtime's and is not part of the sources.  Section 4.2: each call
    receives the bytes newly available and the events of their range, and
    the framework advances its input cursor by the consumed amount.  One
    call on the window that ends at absolute offset [wend]: the block sees
    the unconsumed part of the window and the stream's tags; the input
    cursor advances by what the call passed to [consume]; [written] grows by
    the bytes the call wrote, the first [produced] bytes of its output
    buffer. *)
Definition call (wend : Z) (f : flow) : flow :=
  let in0 := Py.slice stream (nread f) wend in
  let out0 := repeat x00 capacity in
  let w := PacketExtractor.general_work
             (blk f) (mk_input (nread f) tags) in0 out0 in
  mk (PacketExtractor.self' w)
     (nread f + PacketExtractor.consumed w)
     (written f ++ Py.slice (PacketExtractor.out0' w) 0
                         (PacketExtractor.produced w)).

(** Calls repeated until the window is consumed, at most [fuel] times. *)
Fixpoint run (fuel : nat) (wend : Z) (f : flow) : flow :=
  match fuel with
  | O => f
  | S fuel' => if nread f <? wend then run fuel' wend (call wend f) else f
  end.

(** Delivery of one window: one unit of fuel per byte still unread. *)
Definition deliver (wend : Z) (f : flow) : flow :=
  run (Z.to_nat (wend - nread f)) wend f.

(** Delivery of consecutive windows, the first starting at [wstart]. *)
Fixpoint deliver_all (ws : list (list byte)) (wstart : Z) (f : flow)
  : flow :=
  match ws with
  | [] => f
  | w :: ws' =>
      let wend := wstart + Py.len w in
      deliver_all ws' wend (deliver wend f)
  end.

(** The start tag a search over the absolute range [a, b) stops at. *)
Definition next_start (sk : string) (a b : Z) : option tag_t :=
  find (fun tag => ((a <=? offset tag) && (offset tag <? b))
                   && String.eqb (key tag) sk) tags.

(** The flow after a copy, by the block [self], of at most [m] bytes
    from absolute position [p] inside the window ending at [wend], onto
    what was written before. *)
Definition copy_from (wend : Z) (self : PacketExtractor.t) (p m : Z)
           (written_before : list byte) : flow :=
  let n := Z.min (wend - p) m in
  mk (PacketExtractor.mk
        (PacketExtractor.packet_len self) (PacketExtractor.start_key self)
        (if m - n =? 0 then PacketExtractor.SEARCHING
         else PacketExtractor.COPYING)
        (m - n))
     (p + n)
     (written_before ++ Py.slice stream p (p + n)).

(** A flow the runtime can go on from: the block's invariant holds, its
    packet length is positive and the cursor is inside the stream. *)
Definition ready (f : flow) : Prop :=
  PacketExtractor.Invariant (blk f)
  /\ 0 < PacketExtractor.packet_len (blk f)
  /\ 0 <= nread f.

(** The same loop as a relation: [runs wend f f'] when calling the block
    on the window ending at [wend] until it is consumed leads from [f]
    to [f']. *)
Inductive runs (wend : Z) : flow -> flow -> Prop :=
| runs_done : forall f, wend <= nread f -> runs wend f f
| runs_call : forall f f',
    nread f < wend -> runs wend (call wend f) f' -> runs wend f f'.

End Delivery.

End Trace.

(* ------------------------------------------------------------------ *)
(** * The runtime's delivery loop *)

Module Scheduler.

(** What persists between two calls of the block: the block itself, the
    absolute read cursor of its input, the bytes the calls have written,
    and [sink], everything the runtime has handed on downstream. *)
Record flow : Type := mk {
  blk : PacketExtractor.t;
  nread : Z;
  written : list byte;
  sink : list byte
}.

Definition start (packet_len_bytes : Z) : flow :=
  mk (PacketExtractor.__init__ packet_len_bytes) 0 [] [].

(** The part of a flow that decides the calls to come, with the bytes
    written. *)
Definition progress (f : flow) : Trace.flow :=
  Trace.mk (blk f) (nread f) (written f).

Definition ready (f : flow) : Prop := Trace.ready (progress f).

Section Delivery.

Variable stream : list byte.
Variable tags : list tag_t.
Variable capacity : nat.

(** Modelled from the spec: the scheduler that calls the block is the
    runtime's and is not part of the sources.  Section 4.2: each call
    receives the bytes newly available and the events of their range,
    returns how many bytes it consumed and produced, and the framework
    advances its cursors by exactly those amounts.  One call on the window
    that ends at absolute offset [wend]: the input cursor advances by the
    argument of [consume]; the output advances by the value the call
    returns, so that many bytes of the output buffer go downstream.
    [written] keeps beside it the bytes the call itself wrote, the first
    [produced] bytes of the buffer. *)
Definition call (wend : Z) (f : flow) : flow :=
  let in0 := Py.slice stream (nread f) wend in
  let out0 := repeat x00 capacity in
  let w := PacketExtractor.general_work
             (blk f) (mk_input (nread f) tags) in0 out0 in
  mk (PacketExtractor.self' w)
     (nread f + PacketExtractor.consumed w)
     (written f ++ Py.slice (PacketExtractor.out0' w) 0
                            (PacketExtractor.produced w))
     (sink f ++ Py.slice (PacketExtractor.out0' w) 0
                         (PacketExtractor.returned w)).

(** Calls repeated until the window is consumed, at most [fuel] times. *)
Fixpoint run (fuel : nat) (wend : Z) (f : flow) : flow :=
  match fuel with
  | O => f
  | S fuel' => if nread f <? wend then run fuel' wend (call wend f) else f
  end.

(** Delivery of one window: one unit of fuel per byte still unread. *)
Definition deliver (wend : Z) (f : flow) : flow :=
  run (Z.to_nat (wend - nread f)) wend f.

(** Delivery of consecutive windows, the first starting at [wstart]. *)
Fixpoint deliver_all (ws : list (list byte)) (wstart : Z) (f : flow)
  : flow :=
  match ws with
  | [] => f
  | w :: ws' =>
      let wend := wstart + Py.len w in
      deliver_all ws' wend (deliver wend f)
  end.

End Delivery.

End Scheduler.

(* ------------------------------------------------------------------ *)
(** * Python strings

    A [str] is modelled by a Rocq string with one character per code
    point, which covers the code points below 256. *)

Module PyStr.

Definition code (c : ascii) : Z := Z.of_N (N_of_ascii c).

(** The characters [int] skips at both ends of its argument. *)
Definition isspace (c : ascii) : bool :=
  let n := code c in
  ((9 <=? n) && (n <=? 13)) || (n =? 32) || (n =? 133) || (n =? 160).

(** The value of a base-16 digit. *)
Definition digit_value (c : ascii) : option Z :=
  let n := code c in
  if (48 <=? n) && (n <=? 57) then Some (n - 48)
  else if (97 <=? n) && (n <=? 102) then Some (n - 87)
  else if (65 <=? n) && (n <=? 70) then Some (n - 55)
  else None.

Fixpoint lstrip (s : string) : string :=
  match s with
  | String c s' => if isspace c then lstrip s' else s
  | EmptyString => EmptyString
  end.

Fixpoint all_space (s : string) : bool :=
  match s with
  | String c s' => isspace c && all_space s'
  | EmptyString => true
  end.

(** The digits of a literal: single underscores are allowed between
    digits, blanks after the last digit, and nothing else. *)
Fixpoint digits (acc : Z) (after_underscore : bool) (s : string) : option Z :=
  match s with
  | EmptyString => if after_underscore then None else Some acc
  | String c s' =>
      match digit_value c with
      | Some d => digits (16 * acc + d) false s'
      | None =>
          if after_underscore then None
          else if Ascii.eqb c "_" then digits acc true s'
          else if all_space s then Some acc else None
      end
  end.

(** [int(s, 16)]: blanks, an optional sign, an optional [0x] or [0X] (with
    one underscore allowed behind it), then the digits; [ValueError]
    otherwise. *)
Definition int16 (s : string) : Py.outcome Z :=
  let s1 := lstrip s in
  let '(negative, s2) :=
    match s1 with
    | String "+" r => (false, r)
    | String "-" r => (true, r)
    | _ => (false, s1)
    end in
  let s3 :=
    match s2 with
    | String "0" (String x r) =>
        if Ascii.eqb x "x" || Ascii.eqb x "X"
        then match r with String "_" r' => r' | _ => r end
        else s2
    | _ => s2
    end in
  match s3 with
  | String c _ =>
      match digit_value c, digits 0 false s3 with
      | Some _, Some v => Py.Returns (if negative then - v else v)
      | _, _ => Py.Raises "ValueError"
      end
  | EmptyString => Py.Raises "ValueError"
  end.

(** The binary digits of a positive number, most significant first. *)
Fixpoint bin (p : positive) : string :=
  match p with
  | xH => "1"
  | xO q => (bin q ++ "0")%string
  | xI q => (bin q ++ "1")%string
  end.

Fixpoint zeros (n : nat) : string :=
  match n with
  | O => EmptyString
  | S n' => String "0" (zeros n')
  end.

(** [f'{v:08b}']: binary, padded with zeros (behind the sign) to a width
    of 8. *)
Definition format_08b (v : Z) : string :=
  match v with
  | Z0 => (zeros 7 ++ "0")%string
  | Zpos p => (zeros (8 - String.length (bin p)) ++ bin p)%string
  | Zneg p => ("-" ++ zeros (7 - String.length (bin p)) ++ bin p)%string
  end.

(** [s.endswith(suffix)] *)
Definition endswith (s suffix : string) : bool :=
  let n := String.length s in
  let m := String.length suffix in
  (m <=? n)%nat && String.eqb (substring (n - m) m s) suffix.

(** [s.startswith(prefix)] *)
Definition startswith (s prefix : string) : bool := String.prefix prefix s.

(** [sorted(l)] on strings.  The order on strings is total and two names
    that compare equal are the same name, so every sorting method gives
    this list. *)
Fixpoint insert_sorted (x : string) (l : list string) : list string :=
  match l with
  | [] => [x]
  | y :: l' => if String.leb x y then x :: l else y :: insert_sorted x l'
  end.

Fixpoint sorted (l : list string) : list string :=
  match l with
  | [] => []
  | x :: l' => insert_sorted x (sorted l')
  end.

(** [os.path.join(path, b)] of [posixpath]. *)
Definition join (path b : string) : string :=
  if startswith b "/" then b
  else if (String.length path =? 0)%nat || endswith path "/"
       then (path ++ b)%string
       else (path ++ "/" ++ b)%string.

End PyStr.

(* ------------------------------------------------------------------ *)
(** * The sync word of the receiver *)

Definition SYNC_WORD_HEX : string := "7e6D757368617272".

(** [hex[i:i+2] for i in range(0, len(hex), 2)] *)
Fixpoint chunks2 (hex : string) : list string :=
  match hex with
  | EmptyString => []
  | String a EmptyString => [String a EmptyString]
  | String a (String b rest) => String a (String b EmptyString) :: chunks2 rest
  end.

(** [''.join(f'{int(c, 16):08b}' for c in chunks)]: the first chunk that
    [int] rejects ends the evaluation. *)
Fixpoint join_bits (chunks : list string) : Py.outcome string :=
  match chunks with
  | [] => Py.Returns EmptyString
  | c :: chunks' =>
      match PyStr.int16 c with
      | Py.Raises exn => Py.Raises exn
      | Py.Returns v =>
          match join_bits chunks' with
          | Py.Raises exn => Py.Raises exn
          | Py.Returns bits => Py.Returns (PyStr.format_08b v ++ bits)%string
          end
      end
  end.

(** The expression that [PacketRX.__init__] evaluates, as a function of the
    hexadecimal constant. *)
Definition sync_word_bits (hex : string) : Py.outcome string :=
  join_bits (chunks2 hex).

Definition SYNC_WORD_BITS : Py.outcome string := sync_word_bits SYNC_WORD_HEX.

(** Every character of a string passes a test. *)
Fixpoint all_chars (test : ascii -> bool) (s : string) : bool :=
  match s with
  | EmptyString => true
  | String c s' => test c && all_chars test s'
  end.

(** Some character of a string passes a test. *)
Fixpoint some_char (test : ascii -> bool) (s : string) : bool :=
  match s with
  | EmptyString => false
  | String c s' => test c || some_char test s'
  end.

Definition is_hex_digit (c : ascii) : bool :=
  match PyStr.digit_value c with Some _ => true | None => false end.

Definition is_bit (c : ascii) : bool := Ascii.eqb c "0" || Ascii.eqb c "1".

(** Among the code points below 256, the only ones [string] holds: a
    character that cannot occur anywhere in a literal [int] accepts.  From
    256 on [int] also takes the decimal digits and blanks of other scripts;
    those are not characters of this model and none of them is meant
    here. *)
Definition is_foreign (c : ascii) : bool :=
  negb (is_hex_digit c || PyStr.isspace c || Ascii.eqb c "+"
        || Ascii.eqb c "-" || Ascii.eqb c "_" || Ascii.eqb c "x"
        || Ascii.eqb c "X").

(** The number a string of hexadecimal digits denotes, read from the most
    significant digit, continuing from [acc]. *)
Fixpoint hex_value (acc : Z) (s : string) : Z :=
  match s with
  | EmptyString => acc
  | String c s' =>
      hex_value (16 * acc + match PyStr.digit_value c with
                            | Some d => d
                            | None => 0
                            end) s'
  end.

(** The number a string of bits denotes, read from the most significant
    bit, continuing from [acc]. *)
Fixpoint bits_value (acc : Z) (s : string) : Z :=
  match s with
  | EmptyString => acc
  | String c s' => bits_value (2 * acc + (if Ascii.eqb c "1" then 1 else 0)) s'
  end.

(** All 256 characters. *)
Definition all_ascii : list ascii := map ascii_of_nat (seq 0 256).

(* ------------------------------------------------------------------ *)
(** * The batch transmitter *)

Module Batch_Transmission.

Definition INPUT_DIR : string := "./iraq/iraq/image_packets".
Definition FLOWGRAPH_PATH : string := "./tx_packet.py".
Definition PACKET_DELAY : Z := 1.

(** What the script asks of the file system. *)
Record filesystem : Type := mk_fs {
  isdir : string -> bool;
  listdir : string -> list string
}.

(** The console messages, by the [print] that writes them and the values
    it formats. *)
Inductive message : Type :=
| directory_not_found (path : string)
| no_bin_files (path : string)
| starting (total_packets : Z) (path : string)
| transmitting (number total_packets : Z) (filename : string)
| pausing (seconds : Z)
| complete.

(** What the script does to the outside, in order. *)
Inductive effect : Type :=
| Print (m : message)
| Run (command : list string)
| Sleep (seconds : Z).

(** The body of [for i, filename in enumerate(packet_files)], from index
    [i] on. *)
Fixpoint transmit (total_packets i : Z) (packet_files : list string)
  : list effect :=
  match packet_files with
  | [] => []
  | filename :: rest =>
      let input_path := PyStr.join INPUT_DIR filename in
      let command :=
        ["python3"%string; FLOWGRAPH_PATH;
         ("--input_file=" ++ input_path)%string] in
      [Print (transmitting (i + 1) total_packets filename); Run command]
      ++ (if i <? total_packets - 1
          then [Print (pausing PACKET_DELAY); Sleep PACKET_DELAY]
          else [])
      ++ transmit total_packets (i + 1) rest
  end.

(** [main()] *)
Definition main (fs : filesystem) : list effect :=
  if negb (isdir fs INPUT_DIR) then [Print (directory_not_found INPUT_DIR)]
  else
    let packet_files :=
      PyStr.sorted (filter (fun f => PyStr.endswith f ".bin")
                           (listdir fs INPUT_DIR)) in
    match packet_files with
    | [] => [Print (no_bin_files INPUT_DIR)]
    | _ :: _ =>
        let total_packets := Py.len packet_files in
        [Print (starting total_packets INPUT_DIR)]
        ++ transmit total_packets 0 packet_files
        ++ [Print complete]
    end.

(** The commands a trace runs, and the pauses it makes, in order. *)
Fixpoint commands (trace : list effect) : list (list string) :=
  match trace with
  | [] => []
  | Run command :: trace' => command :: commands trace'
  | _ :: trace' => commands trace'
  end.

Fixpoint pauses (trace : list effect) : list Z :=
  match trace with
  | [] => []
  | Sleep seconds :: trace' => seconds :: pauses trace'
  | _ :: trace' => pauses trace'
  end.


(** A trace without its console messages. *)
Fixpoint without_prints (trace : list effect) : list effect :=
  match trace with
  | [] => []
  | Print _ :: trace' => without_prints trace'
  | e :: trace' => e :: without_prints trace'
  end.

(** Commands run one after the other with a pause between two of them. *)
Fixpoint schedule (cmds : list (list string)) : list effect :=
  match cmds with
  | [] => []
  | c :: rest =>
      match rest with
      | [] => [Run c]
      | _ :: _ => Run c :: Sleep PACKET_DELAY :: schedule rest
      end
  end.

(** The command that transmits one file. *)
Definition command_for (filename : string) : list string :=
  ["python3"%string; "./tx_packet.py"%string;
   ("--input_file=" ++ PyStr.join "./iraq/iraq/image_packets" filename)%string].

End Batch_Transmission.

(** Tags arrive in stream order: offsets never decrease along the list. *)
Definition in_stream_order (tags : list tag_t) : Prop :=
  StronglySorted (fun t1 t2 => offset t1 <= offset t2) tags.

(* ------------------------------------------------------------------ *)
(** * Properties of the line code *)

Section LineCodecFacts.

Import LineCodec.

Variable M : Z.

Lemma stream_length step c xs :
  List.length (stream step c xs) = List.length xs.
Proof.
  revert c; induction xs as [|x xs IH]; intros c; simpl; auto.
  destruct (step c x) as [y c']; simpl; now rewrite IH.
Qed.

(** Once the decoder's register is the rotated image of the encoder's,
    decoding the rotated code words gives back the input groups. *)
Lemma decode_rotated_encode r e bs :
  stream decode (mk M (rotate M r e))
         (map (rotate M r) (stream encode (mk M e) bs))
  = map (fun b => b mod M) bs.
Proof.
  revert e; induction bs as [|b bs IH]; intros e; simpl; auto.
  rewrite IH; f_equal.
  unfold rotate.
  rewrite <- Zminus_mod.
  replace ((e + b) mod M + r - (e + r)) with ((e + b) mod M - e) by lia.
  rewrite Zminus_mod_idemp_l.
  f_equal; lia.
Qed.

Lemma map_mod_small bs :
  Forall (fun b => 0 <= b < M) bs -> map (fun b => b mod M) bs = bs.
Proof.
  induction 1 as [|b bs Hb _ IH]; simpl; auto.
  now rewrite IH, Z.mod_small.
Qed.

(** With both registers at 0, every decoded group but the first is the
    input group; the first one carries the rotation. *)
Lemma rotation_cancels r bs :
  Forall (fun b => 0 <= b < M) bs ->
  tl (stream decode (diff_decoder_bb M)
             (map (rotate M r) (stream encode (diff_encoder_bb M) bs)))
  = tl bs.
Proof.
  intros Hbs. destruct bs as [|b bs]; simpl; auto.
  inversion Hbs; subst.
  fold (rotate M r ((0 + b) mod M)).
  rewrite decode_rotated_encode. now apply map_mod_small.
Qed.

End LineCodecFacts.

(** C1: with M = 4 and both registers starting at 0, encoding any sequence
    of 2-bit groups, rotating every symbol by a constant r in [0, 4) and
    decoding gives a sequence of the same length whose groups from the
    second position onward are the original ones. *)
Theorem C1_rotation_invariance (bs : list Z) (r : Z) :
  Forall (fun b => 0 <= b < 4) bs ->
  0 <= r < 4 ->
  let received :=
    map (LineCodec.rotate 4 r)
        (LineCodec.stream LineCodec.encode PacketTX.diff_encoder bs) in
  let decoded :=
    LineCodec.stream LineCodec.decode PacketRX.diff_decoder received in
  List.length decoded = List.length bs /\ tl decoded = tl bs.
Proof.
  intros Hbs _ received decoded. split.
  - unfold decoded, received.
    now rewrite stream_length, length_map, stream_length.
  - apply rotation_cancels; exact Hbs.
Qed.

Lemma C1_rotation_invariance_witness :
  let bs := [3; 1; 0; 2; 2] in
  let decoded :=
    LineCodec.stream LineCodec.decode PacketRX.diff_decoder
      (map (LineCodec.rotate 4 3)
           (LineCodec.stream LineCodec.encode PacketTX.diff_encoder bs)) in
  List.length decoded = List.length bs /\ tl decoded = tl bs.
Proof.
  apply (C1_rotation_invariance [3; 1; 0; 2; 2] 3).
  - repeat constructor; lia.
  - lia.
Defined.

(** C9: with M = 4 and both registers at 0, the delta indices [1,2,3,0]
    encode to the symbols [1,3,2,2], and [1,3,2,2] decodes to [1,2,3,0]. *)
Theorem C9_scenario_C :
  LineCodec.stream LineCodec.encode PacketTX.diff_encoder [1; 2; 3; 0]
    = [1; 3; 2; 2]
  /\ LineCodec.stream LineCodec.decode PacketRX.diff_decoder [1; 3; 2; 2]
    = [1; 2; 3; 0].
Proof. split; reflexivity. Qed.

(* ------------------------------------------------------------------ *)
(** * Slices *)

Section PyFacts.

Context {A : Type}.
Implicit Types l src : list A.

Lemma len_nonneg l : 0 <= Py.len l.
Proof. unfold Py.len; lia. Qed.

Lemma len_app l1 l2 : Py.len (l1 ++ l2) = Py.len l1 + Py.len l2.
Proof. unfold Py.len; rewrite length_app; lia. Qed.

Lemma bound_in_range n i : 0 <= i <= n -> Py.bound n i = i.
Proof.
  intros H. unfold Py.bound.
  destruct (Z.ltb_spec i 0); lia.
Qed.

Lemma bound_range n i : 0 <= n -> 0 <= Py.bound n i <= n.
Proof.
  intros H. unfold Py.bound.
  destruct (Z.ltb_spec i 0); lia.
Qed.

(** Inside the sequence a slice is the plain sub-list. *)
Lemma slice_in_range l lo hi :
  0 <= lo <= hi -> hi <= Py.len l ->
  Py.slice l lo hi = firstn (Z.to_nat (hi - lo)) (skipn (Z.to_nat lo) l).
Proof.
  intros H1 H2. unfold Py.slice.
  now rewrite !bound_in_range by lia.
Qed.

Lemma slice_length l lo hi :
  0 <= lo <= hi -> hi <= Py.len l -> Py.len (Py.slice l lo hi) = hi - lo.
Proof.
  intros H1 H2. rewrite slice_in_range by assumption.
  unfold Py.len in *. rewrite length_firstn, length_skipn. lia.
Qed.

Lemma slice_empty l lo : 0 <= lo <= Py.len l -> Py.slice l lo lo = [].
Proof.
  intros H. rewrite slice_in_range by lia.
  now rewrite Z.sub_diag.
Qed.

Lemma firstn_plus (n k : nat) l :
  firstn (n + k) l = firstn n l ++ firstn k (skipn n l).
Proof.
  revert l; induction n as [|n IH]; intros [|x l]; simpl; auto.
  - now rewrite firstn_nil.
  - now rewrite IH.
Qed.

(** Two adjacent slices make one. *)
Lemma slice_adjacent l a b c :
  0 <= a <= b -> b <= c -> c <= Py.len l ->
  Py.slice l a b ++ Py.slice l b c = Py.slice l a c.
Proof.
  intros H1 H2 H3. rewrite !slice_in_range by lia.
  replace (Z.to_nat b) with (Z.to_nat (b - a) + Z.to_nat a)%nat by lia.
  rewrite <- skipn_skipn.
  replace (Z.to_nat (c - a)) with (Z.to_nat (b - a) + Z.to_nat (c - b))%nat
    by lia.
  now rewrite firstn_plus.
Qed.

(** A slice taken from a slice that reaches the same end. *)
Lemma slice_of_suffix l a e p q :
  0 <= a -> e <= Py.len l -> 0 <= p <= q -> a + q <= e ->
  Py.slice (Py.slice l a e) p q = Py.slice l (a + p) (a + q).
Proof.
  intros Ha He Hp Hq.
  rewrite (slice_in_range (Py.slice l a e))
    by (rewrite ?slice_length; lia).
  rewrite !slice_in_range by lia.
  rewrite skipn_firstn_comm, firstn_firstn, skipn_skipn.
  f_equal; [lia | f_equal; lia].
Qed.

(** Overwriting a prefix with a source of the same length. *)
Lemma slice_assign_prefix l n src :
  0 <= n <= Py.len l ->
  Py.slice_assign l 0 n src = src ++ skipn (Z.to_nat n) l.
Proof.
  intros H. unfold Py.slice_assign.
  rewrite !bound_in_range by lia.
  now rewrite Z.max_r by lia.
Qed.

Lemma slice_prefix_app src l :
  Py.slice (src ++ l) 0 (Py.len src) = src.
Proof.
  rewrite slice_in_range by (rewrite ?len_app; pose proof (len_nonneg l);
                             pose proof (len_nonneg src); lia).
  simpl. rewrite Z.sub_0_r. unfold Py.len. rewrite Nat2Z.id.
  rewrite firstn_app, Nat.sub_diag, firstn_all. simpl.
  now rewrite app_nil_r.
Qed.

End PyFacts.

(* ------------------------------------------------------------------ *)
(** * One call of the extractor *)

Section GeneralWork.

Import PacketExtractor.

(** A tag the search stops at lies inside the window and has the key. *)
Lemma first_start_in_window self inp in0 tag :
  first_start self inp in0 = Some tag ->
  0 <= offset tag - nitems_read inp < Py.len in0
  /\ key tag = start_key self.
Proof.
  unfold first_start, get_tags_in_window. intros H.
  apply find_some in H. destruct H as [Hin Hkey].
  apply filter_In in Hin. destruct Hin as [_ Hrange].
  apply andb_true_iff in Hrange. destruct Hrange as [Hlo Hhi].
  apply Z.leb_le in Hlo. apply Z.ltb_lt in Hhi.
  apply String.eqb_eq in Hkey. split; [lia | exact Hkey].
Qed.

Lemma first_start_none self inp in0 :
  first_start self inp in0 = None <->
  (forall tag, In tag (get_tags_in_window inp 0 (Py.len in0)) ->
               key tag <> start_key self).
Proof.
  unfold first_start. split.
  - intros H tag Hin Hkey.
    apply (find_none _ _ H) in Hin.
    apply String.eqb_neq in Hin. contradiction.
  - intros H.
    destruct (find _ _) as [tag|] eqn:E; [exfalso | reflexivity].
    apply find_some in E. destruct E as [Hin Hkey].
    apply String.eqb_eq in Hkey. exact (H tag Hin Hkey).
Qed.

(** The copy step in closed form, for a cursor inside the window. *)
Lemma copy_spec self in0 out0 read_ptr :
  0 <= read_ptr <= Py.len in0 ->
  let n := copied self in0 out0 read_ptr in
  copy self in0 out0 read_ptr 0 =
    (mk (packet_len self) (start_key self)
        (if items_to_copy self - n =? 0 then SEARCHING else state self)
        (items_to_copy self - n),
     Py.slice in0 read_ptr (read_ptr + n) ++ skipn (Z.to_nat n) out0,
     read_ptr + n, n).
Proof.
  intros Hr n. unfold copy. rewrite Z.sub_0_r.
  set (k := Py.min3 _ _ _).
  assert (Hn : n = Z.max 0 k) by reflexivity.
  assert (Hk : k <= Py.len in0 - read_ptr /\ k <= Py.len out0)
    by (unfold k, Py.min3; lia).
  destruct (Z.ltb_spec 0 k) as [Hpos|Hneg].
  - assert (n = k) by lia. subst k. rewrite <- H.
    rewrite Z.add_0_l, slice_assign_prefix by lia.
    destruct self as [pl sk st itc]; simpl.
    now destruct (itc - n =? 0).
  - assert (n = 0) by lia. rewrite H, Z.sub_0_r, Z.add_0_r.
    rewrite slice_empty by lia. simpl.
    destruct self as [pl sk st itc]; simpl.
    now destruct (itc =? 0).
Qed.

(** The slice assignment of the copy step is between slices of the same
    shape: numpy never has to reject or broadcast it. *)
Lemma copy_shapes_agree self (in0 out0 : list byte) read_ptr :
  0 <= read_ptr <= Py.len in0 ->
  let n := Py.min3 (Py.len in0 - read_ptr) (items_to_copy self)
                   (Py.len out0 - 0) in
  0 < n ->
  Py.len (Py.slice in0 read_ptr (read_ptr + n)) = n
  /\ Py.len (Py.slice out0 0 (0 + n)) = n.
Proof.
  intros Hr n Hn.
  assert (n <= Py.len in0 - read_ptr /\ n <= Py.len out0)
    by (unfold n, Py.min3; lia).
  rewrite !slice_length by lia. lia.
Qed.

(** Searching, and no start tag in the window. *)
Lemma general_work_idle self inp in0 out0 :
  state self = SEARCHING ->
  first_start self inp in0 = None ->
  general_work self inp in0 out0 = mk_work self out0 (Py.len in0) 0 0.
Proof.
  unfold first_start, general_work, search. intros Hs Hf.
  now rewrite Hs, Hf, Hs.
Qed.

(** Searching, and a start tag in the window. *)
Lemma general_work_detect self inp in0 out0 tag :
  state self = SEARCHING ->
  first_start self inp in0 = Some tag ->
  let self1 := mk (packet_len self) (start_key self) COPYING
                  (packet_len self) in
  let tag_pos := offset tag - nitems_read inp in
  let n := copied self1 in0 out0 tag_pos in
  general_work self inp in0 out0 =
    mk_work (mk (packet_len self) (start_key self)
                (if packet_len self - n =? 0 then SEARCHING else COPYING)
                (packet_len self - n))
            (Py.slice in0 tag_pos (tag_pos + n) ++ skipn (Z.to_nat n) out0)
            (tag_pos + n) n (Py.len out0).
Proof.
  intros Hs Hf self1 tag_pos n.
  pose proof (first_start_in_window _ _ _ _ Hf) as [Hpos _].
  unfold first_start in Hf. unfold general_work, search.
  rewrite Hs, Hf. simpl.
  change (set_items_to_copy (set_state self COPYING) (packet_len self))
    with self1.
  fold tag_pos.
  rewrite (copy_spec self1 in0 out0 tag_pos) by (unfold tag_pos; lia).
  reflexivity.
Qed.

(** Copying. *)
Lemma general_work_copy self inp in0 out0 :
  state self = COPYING ->
  let n := copied self in0 out0 0 in
  general_work self inp in0 out0 =
    mk_work (mk (packet_len self) (start_key self)
                (if items_to_copy self - n =? 0 then SEARCHING else COPYING)
                (items_to_copy self - n))
            (Py.slice in0 0 n ++ skipn (Z.to_nat n) out0)
            n n (Py.len out0).
Proof.
  intros Hs n. unfold general_work. rewrite Hs. simpl.
  rewrite (copy_spec self in0 out0 0) by (pose proof (len_nonneg in0); lia).
  fold n. now rewrite Hs.
Qed.

Lemma copied_bounds self in0 out0 read_ptr :
  0 <= items_to_copy self ->
  let n := copied self in0 out0 read_ptr in
  0 <= n <= items_to_copy self.
Proof. intros H n. unfold n, copied, Py.min3. lia. Qed.

(** One call preserves the invariant, whatever it is given. *)
Lemma general_work_invariant self inp in0 out0 :
  0 < packet_len self ->
  Invariant self ->
  Invariant (self' (general_work self inp in0 out0))
  /\ packet_len (self' (general_work self inp in0 out0)) = packet_len self.
Proof.
  intros Hpl Hinv. pose proof Hinv as [Hrange Hiff].
  destruct (state self) eqn:Hs.
  - destruct (first_start self inp in0) as [tag|] eqn:Hf.
    + rewrite (general_work_detect _ _ _ _ _ Hs Hf). simpl.
      set (n := copied _ _ _ _).
      assert (Hn : 0 <= n <= packet_len self)
        by (unfold n, copied, Py.min3; simpl; lia).
      split; [|reflexivity]. unfold Invariant; simpl.
      destruct (Z.eqb_spec (packet_len self - n) 0); split; try lia;
        split; intros; try lia; try discriminate; reflexivity.
    + rewrite (general_work_idle _ _ _ _ Hs Hf). simpl.
      split; [exact Hinv | reflexivity].
  - rewrite (general_work_copy _ _ _ _ Hs). simpl.
    set (n := copied _ _ _ _).
    assert (Hn : 0 <= n <= items_to_copy self)
      by (apply copied_bounds; lia).
    split; [|reflexivity]. unfold Invariant; simpl.
    destruct (Z.eqb_spec (items_to_copy self - n) 0); split; try lia;
      split; intros; try lia; try discriminate; reflexivity.
Qed.

End GeneralWork.

(* ------------------------------------------------------------------ *)
(** * Single-call properties of the extractor *)

Import PacketExtractor.

(** The bytes a call has put at the front of its output buffer. *)
Lemma written_prefix (src out0 : list byte) (n : Z) :
  Py.len src = n ->
  Py.slice (src ++ skipn (Z.to_nat n) out0) 0 n = src.
Proof. intros <-. apply slice_prefix_app. Qed.

(** C4: a window delivered while Searching that carries no sync event is
    reported consumed in full (1000 for a 1000-byte window), nothing is
    produced, and the extractor is left as it was, in Searching. *)
Theorem C4_window_without_event self inp in0 out0 :
  state self = SEARCHING ->
  (forall tag, In tag (get_tags_in_window inp 0 (Py.len in0)) ->
               key tag <> start_key self) ->
  let w := general_work self inp in0 out0 in
  consumed w = Py.len in0 /\ produced w = 0 /\ returned w = 0
  /\ out0' w = out0 /\ self' w = self /\ state (self' w) = SEARCHING.
Proof.
  intros Hs Hnone w. apply first_start_none in Hnone.
  unfold w. rewrite (general_work_idle _ _ _ _ Hs Hnone). simpl.
  repeat split; assumption.
Qed.

Lemma C4_window_without_event_witness :
  let self := __init__ 256 in
  let inp := mk_input 5000 [mk_tag 5010 "rx_time"; mk_tag 100 "packet_start";
                            mk_tag 6000 "packet_start"] in
  let in0 := repeat x00 1000 in
  let w := general_work self inp in0 (repeat xff 4096) in
  consumed w = 1000 /\ produced w = 0 /\ returned w = 0
  /\ out0' w = repeat xff 4096 /\ self' w = self
  /\ state (self' w) = SEARCHING.
Proof.
  apply (C4_window_without_event (__init__ 256)
           (mk_input 5000 [mk_tag 5010 "rx_time"; mk_tag 100 "packet_start";
                           mk_tag 6000 "packet_start"])
           (repeat x00 1000) (repeat xff 4096)).
  - reflexivity.
  - vm_compute. intros tag [<-|[]]. discriminate.
Defined.

(** C5: a call that starts in Copying does the same whatever tags the window
    carries: it reads from the start of the window, moves
    min(window, remaining, capacity) bytes, lowers remaining by that amount
    and nothing else, and only goes back to Searching when remaining is 0. *)
Theorem C5_copying_ignores_events self inp inp' in0 out0 :
  state self = COPYING ->
  let w := general_work self inp in0 out0 in
  let n := Z.max 0 (Py.min3 (Py.len in0) (items_to_copy self) (Py.len out0)) in
  general_work self inp' in0 out0 = w
  /\ consumed w = n /\ produced w = n
  /\ Py.slice (out0' w) 0 n = Py.slice in0 0 n
  /\ items_to_copy (self' w) = items_to_copy self - n
  /\ packet_len (self' w) = packet_len self
  /\ (state (self' w) = SEARCHING <-> items_to_copy (self' w) = 0).
Proof.
  intros Hs w n. unfold w.
  rewrite !(general_work_copy _ _ _ _ Hs).
  unfold copied. rewrite Z.sub_0_r. fold n. simpl.
  assert (Hn : 0 <= n <= Py.len in0)
    by (pose proof (len_nonneg in0); unfold n, Py.min3; lia).
  repeat split.
  - apply written_prefix. rewrite slice_length; lia.
  - destruct (Z.eqb_spec (items_to_copy self - n) 0); [easy | discriminate].
  - intros H. now rewrite H.
Qed.

Lemma C5_copying_ignores_events_witness :
  let self := mk 256 "packet_start" COPYING 6 in
  let in0 := [x01; x02; x03; x04; x05; x06; x07; x08] in
  let out0 := repeat x00 16 in
  let w := general_work self (mk_input 300 []) in0 out0 in
  let n := Z.max 0 (Py.min3 (Py.len in0) (items_to_copy self) (Py.len out0)) in
  general_work self (mk_input 300 [mk_tag 302 "packet_start"]) in0 out0 = w
  /\ consumed w = n /\ produced w = n
  /\ Py.slice (out0' w) 0 n = Py.slice in0 0 n
  /\ items_to_copy (self' w) = items_to_copy self - n
  /\ packet_len (self' w) = packet_len self
  /\ (state (self' w) = SEARCHING <-> items_to_copy (self' w) = 0).
Proof.
  apply (C5_copying_ignores_events (mk 256 "packet_start" COPYING 6)
           (mk_input 300 []) (mk_input 300 [mk_tag 302 "packet_start"])
           [x01; x02; x03; x04; x05; x06; x07; x08] (repeat x00 16)).
  reflexivity.
Defined.

(** C10: with packetLength > 0, every state reached from the initial one
    (Searching, remaining 0) by calls on any windows, tag sets and output
    buffers is Searching or Copying, has 0 <= remaining <= packetLength, and
    is Copying exactly when remaining > 0. *)
Theorem C10_state_invariant (packet_len_bytes : Z) self :
  0 < packet_len_bytes ->
  reachable packet_len_bytes self ->
  (state self = SEARCHING \/ state self = COPYING)
  /\ 0 <= items_to_copy self <= packet_len_bytes
  /\ (state self = COPYING <-> 0 < items_to_copy self).
Proof.
  intros Hpos Hreach.
  assert (H : Invariant self /\ packet_len self = packet_len_bytes).
  { induction Hreach as [|self inp in0 out0 _ [IH Hpl]].
    - split; [|reflexivity]. unfold Invariant; simpl.
      split; [lia | split; [discriminate | lia]].
    - destruct (general_work_invariant self inp in0 out0) as [Hi Hl];
        [lia | exact IH | ].
      split; [exact Hi | congruence]. }
  destruct H as [[Hrange Hiff] Hpl]. rewrite Hpl in Hrange.
  repeat split; try tauto; try lia.
  destruct (state self); auto.
Qed.

Lemma C10_state_invariant_witness :
  let self :=
    self' (general_work (__init__ 4) (mk_input 0 [mk_tag 1 "packet_start"])
                        [x0a; x0b; x0c] (repeat x00 8)) in
  (state self = SEARCHING \/ state self = COPYING)
  /\ 0 <= items_to_copy self <= 4
  /\ (state self = COPYING <-> 0 < items_to_copy self).
Proof.
  apply (C10_state_invariant 4).
  - lia.
  - apply reach_work, reach_init.
Defined.

(** C3 (scenario A): Searching, packetLength 256, a 300-byte window whose
    only tag is a sync event at local offset 50, output capacity at least
    250: the call consumes 300, copies the 250 bytes at offsets 50..299 and
    ends in Copying with remaining 6; a next window of at least 6 bytes
    (room for 6 in the output) yields the last 6 bytes and ends the
    256-byte payload. *)
Theorem C3_scenario_A self inp in0 out0 tag :
  state self = SEARCHING ->
  packet_len self = 256 ->
  Py.len in0 = 300 ->
  get_tags_in_window inp 0 300 = [tag] ->
  key tag = start_key self ->
  offset tag = nitems_read inp + 50 ->
  250 <= Py.len out0 ->
  let w := general_work self inp in0 out0 in
  consumed w = 300 /\ produced w = 250
  /\ Py.slice (out0' w) 0 250 = Py.slice in0 50 300
  /\ state (self' w) = COPYING /\ items_to_copy (self' w) = 6
  /\ forall inp1 in1 out1,
       6 <= Py.len in1 -> 6 <= Py.len out1 ->
       let w1 := general_work (self' w) inp1 in1 out1 in
       consumed w1 = 6 /\ produced w1 = 6
       /\ Py.slice (out0' w1) 0 6 = Py.slice in1 0 6
       /\ state (self' w1) = SEARCHING /\ items_to_copy (self' w1) = 0
       /\ Py.len (Py.slice (out0' w) 0 250 ++ Py.slice (out0' w1) 0 6) = 256.
Proof.
  intros Hs Hpl Hlen Htags Hkey Hoff Hcap w.
  assert (Hf : first_start self inp in0 = Some tag).
  { unfold first_start. rewrite Hlen, Htags. cbn [find].
    rewrite Hkey, String.eqb_refl. reflexivity. }
  assert (Hn : copied (mk (packet_len self) (start_key self) COPYING
                          (packet_len self)) in0 out0
                      (offset tag - nitems_read inp) = 250).
  { unfold copied, Py.min3. cbn [items_to_copy]. lia. }
  assert (Hw : w = mk_work (mk 256 (start_key self) COPYING 6)
                           (Py.slice in0 50 300
                              ++ skipn (Z.to_nat 250) out0)
                           300 250 (Py.len out0)).
  { unfold w. rewrite (general_work_detect _ _ _ _ _ Hs Hf).
    cbv zeta. rewrite Hn, Hpl, Hoff.
    replace (nitems_read inp + 50 - nitems_read inp) with 50 by lia.
    reflexivity. }
  rewrite Hw.
  cbn [self' out0' consumed produced returned state items_to_copy].
  assert (Hfirst : Py.slice (Py.slice in0 50 300
                               ++ skipn (Z.to_nat 250) out0) 0 250
                   = Py.slice in0 50 300).
  { apply written_prefix. rewrite slice_length; lia. }
  do 2 (split; [reflexivity|]). split; [exact Hfirst|].
  do 2 (split; [reflexivity|]).
  intros inp1 in1 out1 Hin1 Hout1.
  rewrite (general_work_copy (mk 256 (start_key self) COPYING 6)
             inp1 in1 out1 eq_refl).
  cbv zeta.
  assert (Hm : copied (mk 256 (start_key self) COPYING 6) in1 out1 0 = 6).
  { unfold copied, Py.min3. cbn [items_to_copy]. lia. }
  rewrite Hm.
  cbn [self' out0' consumed produced returned state items_to_copy].
  assert (Hsecond : Py.slice (Py.slice in1 0 6 ++ skipn (Z.to_nat 6) out1) 0 6
                    = Py.slice in1 0 6).
  { apply written_prefix. rewrite slice_length; lia. }
  do 2 (split; [reflexivity|]). split; [exact Hsecond|].
  do 2 (split; [reflexivity|]).
  rewrite Hfirst, Hsecond, len_app, !slice_length; lia.
Qed.

Lemma C3_scenario_A_witness :
  let self := __init__ 256 in
  let in0 := repeat x41 50 ++ repeat x42 250 in
  let w := general_work self (mk_input 1000 [mk_tag 1050 "packet_start"])
                        in0 (repeat x00 4096) in
  consumed w = 300 /\ produced w = 250
  /\ Py.slice (out0' w) 0 250 = Py.slice in0 50 300
  /\ state (self' w) = COPYING /\ items_to_copy (self' w) = 6
  /\ forall inp1 in1 out1,
       6 <= Py.len in1 -> 6 <= Py.len out1 ->
       let w1 := general_work (self' w) inp1 in1 out1 in
       consumed w1 = 6 /\ produced w1 = 6
       /\ Py.slice (out0' w1) 0 6 = Py.slice in1 0 6
       /\ state (self' w1) = SEARCHING /\ items_to_copy (self' w1) = 0
       /\ Py.len (Py.slice (out0' w) 0 250 ++ Py.slice (out0' w1) 0 6) = 256.
Proof.
  apply (C3_scenario_A (__init__ 256)
           (mk_input 1000 [mk_tag 1050 "packet_start"])
           (repeat x41 50 ++ repeat x42 250) (repeat x00 4096)
           (mk_tag 1050 "packet_start"));
    try reflexivity.
  vm_compute. discriminate.
Defined.

(** C6, as stated, fails: with packetLength 256, an 8-byte window whose
    sync event sits on its last byte and room in the output, the call does
    not end with remaining = packetLength and nothing copied: it copies the
    tagged byte and ends with remaining = 255. *)
Lemma C6_event_at_last_byte_counterexample :
  let self := __init__ 256 in
  let in0 := [x01; x02; x03; x04; x05; x06; x07; x08] in
  let w := general_work self (mk_input 0 [mk_tag 7 "packet_start"])
                        in0 (repeat x00 16) in
  ~ (state (self' w) = COPYING
     /\ items_to_copy (self' w) = packet_len self
     /\ produced w = 0)
  /\ produced w = 1 /\ items_to_copy (self' w) = 255.
Proof.
  vm_compute. split; [|split; reflexivity].
  intros [_ [H _]]. discriminate H.
Qed.

(** C6 (amended): Searching, the first sync event of the window on its last
    byte, packetLength > 1.  With room for at least one output byte the call
    copies exactly that last byte and ends in Copying with
    remaining = packetLength - 1, the whole window consumed; with no room
    at all it copies nothing, consumes the window up to the tag and ends in
    Copying with remaining = packetLength. *)
Theorem C6_event_at_last_byte self inp in0 out0 tag :
  state self = SEARCHING ->
  first_start self inp in0 = Some tag ->
  offset tag - nitems_read inp = Py.len in0 - 1 ->
  1 < packet_len self ->
  let w := general_work self inp in0 out0 in
  state (self' w) = COPYING
  /\ (1 <= Py.len out0 ->
      produced w = 1 /\ consumed w = Py.len in0
      /\ items_to_copy (self' w) = packet_len self - 1
      /\ Py.slice (out0' w) 0 1 = Py.slice in0 (Py.len in0 - 1) (Py.len in0))
  /\ (Py.len out0 = 0 ->
      produced w = 0 /\ consumed w = Py.len in0 - 1
      /\ items_to_copy (self' w) = packet_len self).
Proof.
  intros Hs Hf Hlast Hpl w. unfold w.
  pose proof (first_start_in_window _ _ _ _ Hf) as [Hpos _].
  rewrite (general_work_detect _ _ _ _ _ Hs Hf). cbv zeta.
  rewrite Hlast.
  set (n := copied _ _ _ _).
  cbn [self' out0' consumed produced returned state items_to_copy].
  assert (Hn : n = Z.min 1 (Py.len out0)).
  { pose proof (len_nonneg out0).
    unfold n, copied, Py.min3. cbn [items_to_copy]. lia. }
  split; [|split].
  - destruct (Z.eqb_spec (packet_len self - n) 0); [lia | reflexivity].
  - intros Hcap. assert (n = 1) by lia. rewrite H.
    replace (Py.len in0 - 1 + 1) with (Py.len in0) by lia.
    repeat split; try lia.
    apply written_prefix. rewrite slice_length; lia.
  - intros Hcap. assert (n = 0) by lia. rewrite H.
    repeat split; lia.
Qed.

Lemma C6_event_at_last_byte_witness :
  let self := __init__ 256 in
  let in0 := [x01; x02; x03; x04; x05; x06; x07; x08] in
  let out0 := repeat x00 16 in
  let w := general_work self (mk_input 40 [mk_tag 47 "packet_start"])
                        in0 out0 in
  state (self' w) = COPYING
  /\ (1 <= Py.len out0 ->
      produced w = 1 /\ consumed w = Py.len in0
      /\ items_to_copy (self' w) = packet_len self - 1
      /\ Py.slice (out0' w) 0 1 = Py.slice in0 (Py.len in0 - 1) (Py.len in0))
  /\ (Py.len out0 = 0 ->
      produced w = 0 /\ consumed w = Py.len in0 - 1
      /\ items_to_copy (self' w) = packet_len self).
Proof.
  apply (C6_event_at_last_byte (__init__ 256)
           (mk_input 40 [mk_tag 47 "packet_start"])
           [x01; x02; x03; x04; x05; x06; x07; x08] (repeat x00 16)
           (mk_tag 47 "packet_start"));
    reflexivity.
Defined.

(** C7: the value a call returns is not the number of bytes it produced.
    Copying with remaining 6, a 10-byte window and a 16-byte output buffer:
    the call consumes 6 bytes and writes the window's first 6 bytes, which is
    what it passes to [consume] and [produce], but it returns 16, the size of
    the output buffer. *)
Theorem C7_returned_count :
  let self := mk 256 "packet_start" COPYING 6 in
  let in0 := [x01; x02; x03; x04; x05; x06; x07; x08; x09; x0a] in
  let w := general_work self (mk_input 300 []) in0 (repeat x00 16) in
  consumed w = 6 /\ produced w = 6
  /\ out0' w = [x01; x02; x03; x04; x05; x06] ++ repeat x00 10
  /\ returned w = 16
  /\ (consumed w, returned w) <> (6, 6).
Proof.
  vm_compute. repeat split. discriminate.
Qed.

(** C8, as stated, fails: constructing the extractor with packetLength 0 or
    -5 returns a block, and that block then processes a window. *)
Lemma C8_malformed_configuration_counterexample :
  ~ (forall p, p <= 0 -> exists exn, construct p = Py.Raises exn)
  /\ construct 0 = Py.Returns (mk 0 "packet_start" SEARCHING 0)
  /\ construct (-5) = Py.Returns (mk (-5) "packet_start" SEARCHING 0)
  /\ consumed (general_work (__init__ 0) (mk_input 0 []) [x01; x02] []) = 2.
Proof.
  split; [|repeat split].
  intros H. destruct (H 0 ltac:(lia)) as [exn Hexn]. discriminate Hexn.
Qed.

(** C8 (amended): constructing the extractor never fails and checks
    nothing: for every packetLength, also zero or negative, it returns a
    block in Searching with remaining 0 that stores the length as given.
    The receive flowgraph itself takes neither value from its caller: it
    builds the decoder with modulus 4 = 2^2 and the extractor with
    packetLength 256. *)
Theorem C8_construction_unchecked :
  (forall p, construct p = Py.Returns (mk p "packet_start" SEARCHING 0))
  /\ PacketRX.packet_extractor
     = Py.Returns (mk 256 "packet_start" SEARCHING 0)
  /\ LineCodec.modulus PacketRX.diff_decoder = 2 ^ 2.
Proof. repeat split. Qed.

(* ------------------------------------------------------------------ *)
(** * Calls as the runtime makes them *)

Section Calls.

Import Trace.

Variable stream : list byte.
Variable tags : list tag_t.
Variable capacity : nat.

(** The output buffer is never what limits a copy. *)
Hypothesis unbounded : Py.len stream <= Z.of_nat capacity.

Local Abbreviation call := (call stream tags capacity).
Local Abbreviation copy_from := (copy_from stream).
Local Abbreviation next_start := (next_start tags).

Lemma len_repeat (b : byte) n : Py.len (repeat b n) = Z.of_nat n.
Proof. unfold Py.len. now rewrite repeat_length. Qed.

(** The search of a call is a search over the window's absolute range. *)
Lemma first_start_next_start self a (in0 : list byte) :
  first_start self (mk_input a tags) in0
  = next_start (start_key self) a (a + Py.len in0).
Proof.
  unfold first_start, Trace.next_start, get_tags_in_window.
  cbn [nitems_read stream_tags]. rewrite Z.add_0_r.
  induction tags as [|tag ts IH]; cbn [filter find]; [reflexivity|].
  destruct ((a <=? offset tag) && (offset tag <? a + Py.len in0));
    cbn [find andb]; [|exact IH].
  destruct (String.eqb (key tag) (start_key self)); [reflexivity | exact IH].
Qed.

Lemma next_start_found sk a b tag :
  next_start sk a b = Some tag -> a <= offset tag < b /\ key tag = sk.
Proof.
  unfold Trace.next_start. intros H. apply find_some in H.
  destruct H as [_ H].
  apply andb_true_iff in H. destruct H as [H Hk].
  apply andb_true_iff in H. destruct H as [Hlo Hhi].
  apply Z.leb_le in Hlo. apply Z.ltb_lt in Hhi.
  apply String.eqb_eq in Hk. auto.
Qed.

Section OneCall.

Variables (f : flow) (wend : Z).
Hypothesis Hpos : 0 <= nread f.
Hypothesis Hlt : nread f <= wend.
Hypothesis Hend : wend <= Py.len stream.

Local Abbreviation in0 := (Py.slice stream (nread f) wend).
Local Abbreviation out0 := (repeat x00 capacity).

Lemma window_length : Py.len in0 = wend - nread f.
Proof. apply slice_length; lia. Qed.

(** Searching, no start tag in the window: the window is dropped. *)
Lemma call_idle :
  state (blk f) = SEARCHING ->
  next_start (start_key (blk f)) (nread f) wend = None ->
  call wend f = mk (blk f) wend (written f).
Proof.
  intros Hs Hnone. unfold Trace.call.
  rewrite general_work_idle; [| exact Hs |].
  - cbn [self' out0' consumed produced]. rewrite window_length.
    rewrite slice_empty by (pose proof (len_nonneg out0); lia).
    rewrite app_nil_r. f_equal. lia.
  - rewrite first_start_next_start, window_length.
    now replace (nread f + (wend - nread f)) with wend by lia.
Qed.

(** What a call has written, as a slice of the stream. *)
Lemma call_copied self1 p :
  0 <= p <= wend - nread f ->
  0 <= items_to_copy self1 ->
  let n := copied self1 in0 out0 p in
  n = Z.min (wend - (nread f + p)) (items_to_copy self1)
  /\ Py.slice (Py.slice in0 p (p + n) ++ skipn (Z.to_nat n) out0) 0 n
     = Py.slice stream (nread f + p) (nread f + p + n).
Proof.
  intros Hp Hm n.
  assert (Hn : n = Z.min (wend - (nread f + p)) (items_to_copy self1)).
  { unfold n, copied, Py.min3.
    rewrite window_length, len_repeat. lia. }
  split; [exact Hn|].
  rewrite written_prefix
    by (rewrite slice_length; rewrite ?window_length; lia).
  rewrite slice_of_suffix by lia.
  f_equal; lia.
Qed.

(** Searching, a start tag in the window: copy from the tag on. *)
Lemma call_detect tag :
  state (blk f) = SEARCHING ->
  0 <= packet_len (blk f) ->
  next_start (start_key (blk f)) (nread f) wend = Some tag ->
  call wend f
  = copy_from wend (blk f) (offset tag) (packet_len (blk f)) (written f).
Proof.
  intros Hs Hpl Hsome.
  pose proof (next_start_found _ _ _ _ Hsome) as [Hrange _].
  unfold Trace.call.
  rewrite (general_work_detect _ _ _ _ tag Hs).
  2:{ rewrite first_start_next_start, window_length.
      now replace (nread f + (wend - nread f)) with wend by lia. }
  cbv zeta. cbn [nitems_read self' out0' consumed produced].
  set (self1 := PacketExtractor.mk _ _ COPYING _).
  destruct (call_copied self1 (offset tag - nread f)) as [Hn Hout];
    [lia | exact Hpl |].
  set (n := copied _ _ _ _) in *.
  rewrite Hout. unfold Trace.copy_from.
  replace (nread f + (offset tag - nread f)) with (offset tag) in * by lia.
  cbn [items_to_copy self1] in Hn. rewrite <- Hn.
  f_equal. lia.
Qed.

(** Copying: copy from the start of the window. *)
Lemma call_copy :
  state (blk f) = COPYING ->
  0 <= items_to_copy (blk f) ->
  call wend f
  = copy_from wend (blk f) (nread f) (items_to_copy (blk f)) (written f).
Proof.
  intros Hs Hm.
  unfold Trace.call.
  rewrite (general_work_copy _ _ _ _ Hs).
  cbv zeta. cbn [self' out0' consumed produced].
  destruct (call_copied (blk f) 0) as [Hn Hout]; [lia | exact Hm |].
  set (n := copied _ _ _ _) in *.
  rewrite Z.add_0_l in Hout. rewrite Hout. unfold Trace.copy_from.
  replace (nread f + 0) with (nread f) in * by lia.
  rewrite <- Hn. reflexivity.
Qed.

End OneCall.

End Calls.

(* ------------------------------------------------------------------ *)
(** * Searching a range and searching its two halves *)

Section TagRanges.

Import Trace.

Variable sk : string.

Ltac by_cases :=
  repeat match goal with
         | |- context [?x <=? ?y] => destruct (Z.leb_spec x y)
         | |- context [?x <? ?y] => destruct (Z.ltb_spec x y)
         | H : context [?x <=? ?y] |- _ => destruct (Z.leb_spec x y)
         | H : context [?x <? ?y] |- _ => destruct (Z.ltb_spec x y)
         end;
  cbn [andb] in *.

Lemma next_start_none_split tags a k b :
  a <= k <= b ->
  next_start tags sk a b = None ->
  next_start tags sk a k = None /\ next_start tags sk k b = None.
Proof.
  intros Hk. unfold next_start.
  induction tags as [|tag ts IH]; cbn [find]; [auto|].
  destruct (String.eqb (key tag) sk); by_cases;
    try lia; try discriminate; auto.
Qed.

Lemma next_start_before tags a k b tag :
  k <= b ->
  next_start tags sk a b = Some tag ->
  offset tag < k ->
  next_start tags sk a k = Some tag.
Proof.
  intros Hk. unfold next_start.
  induction tags as [|t ts IH]; cbn [find]; [discriminate|].
  destruct (String.eqb (key t) sk); by_cases; try lia; auto;
    intros Efound Hlt; injection Efound as ->; lia.
Qed.

Lemma next_start_all_later tags a k :
  Forall (fun tag => k <= offset tag) tags ->
  next_start tags sk a k = None.
Proof.
  unfold next_start. induction 1 as [|t ts Ht _ IH]; cbn [find]; auto.
  destruct (String.eqb (key t) sk); by_cases; try lia; auto.
Qed.

Lemma next_start_after tags a k b tag :
  in_stream_order tags ->
  a <= k <= b ->
  next_start tags sk a b = Some tag ->
  k <= offset tag ->
  next_start tags sk a k = None /\ next_start tags sk k b = Some tag.
Proof.
  intros Hsorted Hk. unfold next_start.
  induction Hsorted as [|t ts _ IH Hall]; cbn [find]; [discriminate|].
  destruct (String.eqb (key t) sk); by_cases; try lia; auto.
  all: intros Efound Hle; injection Efound as ->; try lia.
  split; [|reflexivity].
  apply next_start_all_later.
  eapply Forall_impl; [|exact Hall]. cbv beta. intros; lia.
Qed.

End TagRanges.

(* ------------------------------------------------------------------ *)
(** * Cutting a window in two *)

Section Windowing.

Import Trace.

Variable stream : list byte.
Variable tags : list tag_t.
Variable capacity : nat.

Hypothesis unbounded : Py.len stream <= Z.of_nat capacity.
Hypothesis sorted : in_stream_order tags.

Local Abbreviation call := (call stream tags capacity).
Local Abbreviation copy_from := (copy_from stream).
Local Abbreviation next_start := (next_start tags).
Local Abbreviation runs := (runs stream tags capacity).
Local Abbreviation run := (run stream tags capacity).
Local Abbreviation deliver := (deliver stream tags capacity).
Local Abbreviation deliver_all := (deliver_all stream tags capacity).

Lemma copy_from_facts wend self p m out :
  0 < packet_len self -> 0 <= p < wend -> 0 < m <= packet_len self ->
  let g := copy_from wend self p m out in
  ready g /\ p < nread g <= wend.
Proof.
  intros Hpl Hp Hm g. unfold g, Trace.copy_from, ready, Invariant.
  cbn [blk nread items_to_copy packet_len state].
  set (n := Z.min (wend - p) m).
  assert (Hn : 1 <= n <= m /\ n <= wend - p) by (unfold n; lia).
  destruct (Z.eqb_spec (m - n) 0); repeat split; intros;
    try lia; try discriminate; reflexivity.
Qed.

Lemma call_facts f wend :
  ready f -> nread f < wend <= Py.len stream ->
  ready (call wend f) /\ nread f < nread (call wend f) <= wend.
Proof.
  intros (Hinv & Hpl & Hpos) Hw. pose proof Hinv as [Hrange Hiff].
  destruct (state (blk f)) eqn:Hs.
  - destruct (next_start (start_key (blk f)) (nread f) wend) as [tag|] eqn:Hf.
    + pose proof (next_start_found _ _ _ _ _ Hf) as [Ht _].
      rewrite (call_detect stream tags capacity unbounded f wend)
        with (tag := tag) by (assumption || lia).
      destruct (copy_from_facts wend (blk f) (offset tag)
                  (packet_len (blk f)) (written f)) as [Hr Hb]; try lia.
      split; [exact Hr | lia].
    + rewrite (call_idle stream tags capacity f wend)
        by (assumption || lia).
      unfold ready; cbn [blk nread].
      split; [split; [exact Hinv | split; [exact Hpl | lia]] | lia].
  - assert (0 < items_to_copy (blk f)) by now apply Hiff.
    rewrite (call_copy stream tags capacity unbounded f wend)
      by (assumption || lia).
    apply copy_from_facts; lia.
Qed.

(** A copy cut at [k] and resumed is the copy done in one go. *)
Lemma copy_from_split k wend self p m out :
  0 < packet_len self -> 0 <= p < k -> k <= wend <= Py.len stream ->
  0 < m <= packet_len self ->
  let g := copy_from k self p m out in
  g = copy_from wend self p m out
  \/ (nread g = k /\ k < wend
      /\ call wend g = copy_from wend self p m out).
Proof.
  intros Hpl Hp Hk Hm g.
  destruct (Z.le_gt_cases m (k - p)) as [Hfit|Hcut].
  - left. unfold g, Trace.copy_from.
    now rewrite !Z.min_r by lia.
  - destruct (Z.eq_dec k wend) as [->|Hne]; [now left | right].
    assert (Hg : g = mk (PacketExtractor.mk (packet_len self)
                           (start_key self) COPYING (m - (k - p)))
                        k (out ++ Py.slice stream p k)).
    { unfold g, Trace.copy_from. rewrite Z.min_l by lia.
      replace (p + (k - p)) with k by lia.
      destruct (Z.eqb_spec (m - (k - p)) 0); [lia | reflexivity]. }
    rewrite Hg. cbn [nread]. repeat split; try lia.
    rewrite (call_copy stream tags capacity unbounded)
      by (cbn [blk nread items_to_copy state]; reflexivity || lia).
    unfold Trace.copy_from.
    cbn [blk nread written items_to_copy packet_len start_key].
    set (n' := Z.min (wend - k) (m - (k - p))).
    set (n := Z.min (wend - p) m).
    assert (Hn : n = k - p + n') by (unfold n, n'; lia).
    assert (Hn' : 0 <= n' /\ k + n' <= wend) by (unfold n'; lia).
    replace (m - (k - p) - n') with (m - n) by lia.
    replace (p + n) with (k + n') by lia.
    rewrite <- app_assoc, slice_adjacent by lia.
    reflexivity.
Qed.

(** One call on the first part of a window is either the call on the
    whole window, or stops at the cut and is completed by the next call,
    made on the whole window. *)
Lemma call_split f k wend :
  ready f -> nread f < k -> k <= wend <= Py.len stream ->
  call k f = call wend f
  \/ (nread (call k f) = k /\ k < wend
      /\ call wend (call k f) = call wend f).
Proof.
  intros (Hinv & Hpl & Hpos) Hk Hw. pose proof Hinv as [Hrange Hiff].
  destruct (state (blk f)) eqn:Hs.
  - destruct (next_start (start_key (blk f)) (nread f) wend) as [tag|] eqn:Hf.
    + pose proof (next_start_found _ _ _ _ _ Hf) as [Ht _].
      rewrite (call_detect stream tags capacity unbounded f wend)
        with (tag := tag) by (assumption || lia).
      destruct (Z.lt_ge_cases (offset tag) k) as [Hin|Hout].
      * pose proof (next_start_before (start_key (blk f)) tags (nread f) k
                      wend tag ltac:(lia) Hf Hin) as Hfk.
        rewrite (call_detect stream tags capacity unbounded f k)
          with (tag := tag) by (assumption || lia).
        apply copy_from_split; lia.
      * destruct (next_start_after (start_key (blk f)) tags (nread f) k
                    wend tag sorted ltac:(lia) Hf Hout) as [Hnone Hsome].
        rewrite (call_idle stream tags capacity f k)
          by (assumption || lia).
        right. cbn [nread]. repeat split; try lia.
        rewrite (call_detect stream tags capacity unbounded _ wend)
          with (tag := tag)
          by (cbn [blk nread]; assumption || lia).
        reflexivity.
    + destruct (next_start_none_split (start_key (blk f)) tags (nread f) k
                  wend ltac:(lia) Hf) as [Hnone1 Hnone2].
      rewrite (call_idle stream tags capacity f wend)
        by (assumption || lia).
      rewrite (call_idle stream tags capacity f k)
        by (assumption || lia).
      destruct (Z.eq_dec k wend) as [->|Hne]; [now left | right].
      cbn [nread]. repeat split; try lia.
      rewrite (call_idle stream tags capacity _ wend)
        by (cbn [blk nread]; assumption || lia).
      reflexivity.
  - assert (0 < items_to_copy (blk f)) by now apply Hiff.
    rewrite (call_copy stream tags capacity unbounded f wend)
      by (assumption || lia).
    rewrite (call_copy stream tags capacity unbounded f k)
      by (assumption || lia).
    apply copy_from_split; lia.
Qed.

(** The loop is a function of the flow it starts from. *)
Lemma runs_deterministic wend f f1 f2 :
  runs wend f f1 -> runs wend f f2 -> f1 = f2.
Proof.
  induction 1 as [f Hdone | f f1 Hlt _ IH]; inversion 1; subst;
    auto; lia.
Qed.

(** It stops exactly at the end of the window, in a flow that is ready
    for the next one. *)
Lemma runs_facts wend f f' :
  runs wend f f' ->
  ready f -> nread f <= wend <= Py.len stream ->
  ready f' /\ nread f' = wend.
Proof.
  induction 1 as [f Hdone | f f' Hlt _ IH]; intros Hr Hw.
  - split; [exact Hr | lia].
  - destruct (call_facts f wend Hr ltac:(lia)) as [Hr' Hb].
    apply IH; [exact Hr' | lia].
Qed.

(** Every call moves the cursor, so one unit of fuel per unread byte is
    enough for the loop to reach the end of the window. *)
Lemma run_runs fuel wend f :
  ready f -> nread f <= wend <= Py.len stream ->
  (Z.to_nat (wend - nread f) <= fuel)%nat ->
  runs wend f (run fuel wend f).
Proof.
  revert f. induction fuel as [|fuel IH]; intros f Hr Hw Hfuel.
  - cbn [Trace.run]. apply runs_done. lia.
  - cbn [Trace.run]. destruct (Z.ltb_spec (nread f) wend) as [Hlt|Hge].
    + destruct (call_facts f wend Hr ltac:(lia)) as [Hr' Hb].
      apply runs_call; [exact Hlt|].
      apply IH; [exact Hr' | lia | lia].
    + apply runs_done. exact Hge.
Qed.

Lemma deliver_runs wend f :
  ready f -> nread f <= wend <= Py.len stream ->
  runs wend f (deliver wend f).
Proof.
  intros Hr Hw. unfold Trace.deliver. apply run_runs; auto.
Qed.

(** Running a window up to a cut and then to its end is running it to its
    end. *)
Lemma runs_split k wend f f1 f2 :
  runs k f f1 ->
  ready f -> nread f <= k -> k <= wend <= Py.len stream ->
  runs wend f1 f2 -> runs wend f f2.
Proof.
  induction 1 as [f Hdone | f f1 Hlt _ IH]; intros Hr Hk Hw Hrest.
  - exact Hrest.
  - destruct (call_facts f k Hr ltac:(lia)) as [Hr' Hb].
    specialize (IH Hr' ltac:(lia) Hw Hrest).
    destruct (call_split f k wend Hr Hlt Hw) as [Heq | (Hat & Hlt' & Heq)].
    + apply runs_call; [lia|]. now rewrite <- Heq.
    + inversion IH as [g Hdone | g g' Hlt'' Hnext]; subst; [lia|].
      apply runs_call; [lia|]. now rewrite <- Heq.
Qed.

Lemma deliver_split k wend f :
  ready f -> nread f <= k -> k <= wend <= Py.len stream ->
  deliver wend (deliver k f) = deliver wend f.
Proof.
  intros Hr Hk Hw.
  pose proof (deliver_runs k f Hr ltac:(lia)) as H1.
  destruct (runs_facts _ _ _ H1 Hr ltac:(lia)) as [Hr1 Hn1].
  pose proof (deliver_runs wend (deliver k f) Hr1 ltac:(lia)) as H2.
  pose proof (runs_split _ _ _ _ _ H1 Hr Hk Hw H2) as H3.
  exact (runs_deterministic _ _ _ _ H3 (deliver_runs wend f Hr ltac:(lia))).
Qed.

(** Any sequence of consecutive windows is delivered like the single
    window that spans them. *)
Lemma deliver_all_single ws :
  forall wstart f,
    ready f -> nread f = wstart ->
    wstart + Py.len (concat ws) <= Py.len stream ->
    deliver_all ws wstart f = deliver (wstart + Py.len (concat ws)) f.
Proof.
  induction ws as [|w ws IH]; intros wstart f Hr Hn Hw.
  - cbn [Trace.deliver_all concat]. unfold Trace.deliver.
    replace (wstart + Py.len (@nil byte) - nread f) with 0
      by (unfold Py.len; simpl; lia).
    reflexivity.
  - cbn [Trace.deliver_all concat] in *. rewrite len_app in *.
    pose proof (len_nonneg w). pose proof (len_nonneg (concat ws)).
    pose proof (deliver_runs (wstart + Py.len w) f Hr ltac:(lia)) as H1.
    destruct (runs_facts _ _ _ H1 Hr ltac:(lia)) as [Hr1 Hn1].
    rewrite IH by (assumption || lia).
    rewrite deliver_split by (assumption || lia).
    f_equal. lia.
Qed.

End Windowing.

(* ------------------------------------------------------------------ *)
(** * The initial flow *)

Lemma start_ready L : 0 < L -> Trace.ready (Trace.start L).
Proof.
  intros HL. unfold Trace.ready, Invariant, Trace.start; simpl.
  repeat split; try lia; discriminate.
Qed.

(* ------------------------------------------------------------------ *)
(** * Further properties of one call *)

Section CallBounds.

Variables (self : t) (inp : gr_input) (in0 out0 : list byte).

Local Abbreviation w := (general_work self inp in0 out0).

(** X1: a call that finds a start tag while Searching starts the payload at
    the first such tag of the window: the bytes before the tag are consumed
    and never written, the copy takes min(bytes from the tag to the end of
    the window, packet_len, output room) bytes from the tag on, and the
    block is back in Searching exactly when that is the whole packet. *)
Theorem detect_starts_at_first_tag tag :
  state self = SEARCHING ->
  first_start self inp in0 = Some tag ->
  let tag_pos := offset tag - nitems_read inp in
  let n := Z.max 0 (Py.min3 (Py.len in0 - tag_pos) (packet_len self)
                            (Py.len out0)) in
  0 <= tag_pos < Py.len in0
  /\ consumed w = tag_pos + n /\ produced w = n
  /\ Py.slice (out0' w) 0 n = Py.slice in0 tag_pos (tag_pos + n)
  /\ items_to_copy (self' w) = packet_len self - n
  /\ (state (self' w) = SEARCHING <-> n = packet_len self).
Proof.
  intros Hs Hf tag_pos n.
  pose proof (first_start_in_window _ _ _ _ Hf) as [Hpos _].
  rewrite (general_work_detect _ _ _ _ _ Hs Hf). cbv zeta.
  unfold copied. cbn [items_to_copy]. fold tag_pos. fold n.
  cbn [self' out0' consumed produced state items_to_copy].
  assert (Hn : 0 <= n <= Py.len in0 - tag_pos)
    by (unfold n, Py.min3; unfold tag_pos; lia).
  split; [exact Hpos|]. do 2 (split; [reflexivity|]).
  split; [apply written_prefix; rewrite slice_length; lia|].
  split; [reflexivity|].
  destruct (Z.eqb_spec (packet_len self - n) 0); split; intros;
    try lia; try discriminate; reflexivity.
Qed.


(** X4: a block that satisfies the invariant, with a positive packet
    length, makes progress on every call that has at least one input byte
    and room for at least one output byte: it consumes at least one byte. *)
Theorem call_makes_progress :
  Invariant self -> 0 < packet_len self ->
  0 < Py.len in0 -> 0 < Py.len out0 ->
  0 < consumed w.
Proof.
  intros [Hrange Hiff] Hpl Hin Hout.
  destruct (state self) eqn:Hs.
  - destruct (first_start self inp in0) as [tag|] eqn:Hf.
    + pose proof (first_start_in_window _ _ _ _ Hf) as [Hpos _].
      rewrite (general_work_detect _ _ _ _ _ Hs Hf). cbv zeta.
      unfold copied, Py.min3. cbn [consumed items_to_copy]. lia.
    + rewrite (general_work_idle _ _ _ _ Hs Hf). cbn [consumed]. lia.
  - assert (0 < items_to_copy self) by now apply Hiff.
    rewrite (general_work_copy _ _ _ _ Hs). cbv zeta.
    unfold copied, Py.min3. cbn [consumed]. lia.
Qed.

End CallBounds.

Lemma detect_starts_at_first_tag_witness :
  let self := __init__ 4 in
  let inp := mk_input 100 [mk_tag 101 "rx_time"; mk_tag 102 "packet_start";
                           mk_tag 103 "packet_start"] in
  let in0 := [x0a; x0b; x0c; x0d; x0e; x0f; x10; x11] in
  let out0 := repeat x00 3 in
  let w := general_work self inp in0 out0 in
  0 <= 2 < Py.len in0
  /\ consumed w = 2 + 3 /\ produced w = 3
  /\ Py.slice (out0' w) 0 3 = Py.slice in0 2 (2 + 3)
  /\ items_to_copy (self' w) = packet_len self - 3
  /\ (state (self' w) = SEARCHING <-> 3 = packet_len self).
Proof.
  apply (detect_starts_at_first_tag (__init__ 4)
           (mk_input 100 [mk_tag 101 "rx_time"; mk_tag 102 "packet_start";
                          mk_tag 103 "packet_start"])
           [x0a; x0b; x0c; x0d; x0e; x0f; x10; x11] (repeat x00 3)
           (mk_tag 102 "packet_start"));
    reflexivity.
Defined.

Lemma call_makes_progress_witness :
  0 < consumed (general_work (mk 256 "packet_start" COPYING 6)
                             (mk_input 300 [mk_tag 300 "packet_start"])
                             [x01; x02] [x00]).
Proof.
  apply call_makes_progress.
  - unfold Invariant; simpl. split; [lia | split; [lia | reflexivity]].
  - simpl; lia.
  - reflexivity.
  - reflexivity.
Defined.





(** X5: when the output buffer is what stops a copy (its room is less than
    both the window and what is left to copy), the call fills it, stays in
    Copying and nothing is lost: a second call on the rest of the window
    with a second buffer ends in the same state, has consumed in total as
    much, and has produced in total the same bytes, as a single call with a
    buffer as large as the two together. *)
Theorem output_exhaustion_resumes self inp inp' in0 out1 out2 out12 :
  state self = COPYING ->
  Py.len out1 < Py.len in0 ->
  Py.len out1 < items_to_copy self ->
  Py.len out12 = Py.len out1 + Py.len out2 ->
  let w1 := general_work self inp in0 out1 in
  let rest := Py.slice in0 (consumed w1) (Py.len in0) in
  let w2 := general_work (self' w1) inp' rest out2 in
  let w := general_work self inp in0 out12 in
  consumed w1 = Py.len out1 /\ produced w1 = Py.len out1
  /\ state (self' w1) = COPYING
  /\ Py.slice (out0' w1) 0 (produced w1) ++ Py.slice (out0' w2) 0 (produced w2)
     = Py.slice (out0' w) 0 (produced w)
  /\ consumed w1 + consumed w2 = consumed w
  /\ self' w2 = self' w.
Proof.
  intros Hs Hin Hm H12 w1 rest w2 w.
  pose proof (len_nonneg out1) as Hc1. pose proof (len_nonneg out2) as Hc2.
  assert (Hn1 : copied self in0 out1 0 = Py.len out1)
    by (unfold copied, Py.min3; lia).
  assert (Hw1 : w1 = mk_work (mk (packet_len self) (start_key self) COPYING
                                 (items_to_copy self - Py.len out1))
                             (Py.slice in0 0 (Py.len out1)
                                ++ skipn (Z.to_nat (Py.len out1)) out1)
                             (Py.len out1) (Py.len out1) (Py.len out1)).
  { unfold w1. rewrite (general_work_copy _ _ _ _ Hs). cbv zeta.
    rewrite Hn1.
    destruct (Z.eqb_spec (items_to_copy self - Py.len out1) 0); [lia|].
    reflexivity. }
  assert (Hrest : Py.len rest = Py.len in0 - Py.len out1).
  { unfold rest. rewrite Hw1. cbn [consumed]. apply slice_length; lia. }
  set (self1 := mk (packet_len self) (start_key self) COPYING
                   (items_to_copy self - Py.len out1)) in *.
  set (n2 := copied self1 rest out2 0).
  set (n := copied self in0 out12 0).
  assert (Hn : n = Py.len out1 + n2 /\ 0 <= n2 <= Py.len rest).
  { unfold n, n2, copied, Py.min3. cbn [items_to_copy self1]. lia. }
  destruct Hn as [Hn Hn2].
  assert (Hw2 : w2 = mk_work (mk (packet_len self) (start_key self)
                                 (if items_to_copy self - n =? 0
                                  then SEARCHING else COPYING)
                                 (items_to_copy self - n))
                             (Py.slice rest 0 n2
                                ++ skipn (Z.to_nat n2) out2)
                             n2 n2 (Py.len out2)).
  { unfold w2. rewrite Hw1. cbn [self'].
    rewrite (general_work_copy self1 inp' rest out2 eq_refl). cbv zeta.
    fold n2. cbn [packet_len start_key items_to_copy self1].
    replace (items_to_copy self - Py.len out1 - n2)
      with (items_to_copy self - n) by lia.
    reflexivity. }
  assert (Hw : w = mk_work (mk (packet_len self) (start_key self)
                               (if items_to_copy self - n =? 0
                                then SEARCHING else COPYING)
                               (items_to_copy self - n))
                           (Py.slice in0 0 n ++ skipn (Z.to_nat n) out12)
                           n n (Py.len out12)).
  { unfold w. now rewrite (general_work_copy _ _ _ _ Hs). }
  rewrite Hw2, Hw, Hw1.
  cbn [self' out0' consumed produced state].
  do 3 (split; [reflexivity|]).
  split; [|split; [lia | reflexivity]].
  rewrite !written_prefix by (rewrite slice_length; lia).
  unfold rest. rewrite Hw1. cbn [consumed].
  rewrite slice_of_suffix by lia.
  rewrite Z.add_0_r, slice_adjacent by lia.
  f_equal. lia.
Qed.

Lemma output_exhaustion_resumes_witness :
  let self := mk 8 "packet_start" COPYING 5 in
  let in0 := [x01; x02; x03; x04; x05; x06; x07] in
  let w1 := general_work self (mk_input 0 []) in0 (repeat x00 2) in
  let rest := Py.slice in0 (consumed w1) (Py.len in0) in
  let w2 := general_work (self' w1) (mk_input 2 []) rest (repeat x00 4) in
  let w := general_work self (mk_input 0 []) in0 (repeat x00 6) in
  consumed w1 = 2 /\ produced w1 = 2
  /\ state (self' w1) = COPYING
  /\ Py.slice (out0' w1) 0 (produced w1) ++ Py.slice (out0' w2) 0 (produced w2)
     = Py.slice (out0' w) 0 (produced w)
  /\ consumed w1 + consumed w2 = consumed w
  /\ self' w2 = self' w.
Proof.
  apply (output_exhaustion_resumes (mk 8 "packet_start" COPYING 5)
           (mk_input 0 []) (mk_input 2 [])
           [x01; x02; x03; x04; x05; x06; x07]
           (repeat x00 2) (repeat x00 4) (repeat x00 6)); reflexivity.
Defined.




(* ------------------------------------------------------------------ *)
(** * Calls with an output buffer of any size *)

Section AnyCapacity.

Import Trace.

Variable stream : list byte.
Variable tags : list tag_t.
Variable capacity : nat.

Local Abbreviation call := (call stream tags capacity).
Local Abbreviation copy_from := (copy_from stream).
Local Abbreviation next_start := (next_start tags).
Local Abbreviation run := (run stream tags capacity).
Local Abbreviation deliver := (deliver stream tags capacity).
Local Abbreviation deliver_all := (deliver_all stream tags capacity).

(** The window a copy from [p] really sees: cut where the output buffer is
    full. *)
Local Abbreviation reach wend p := (Z.min wend (p + Z.of_nat capacity)).

Lemma call_copied_any f wend self1 p :
  0 <= nread f -> wend <= Py.len stream ->
  0 <= p -> p <= wend - nread f ->
  0 <= items_to_copy self1 ->
  let in0 := Py.slice stream (nread f) wend in
  let out0 := repeat x00 capacity in
  let n := copied self1 in0 out0 p in
  n = Z.min (reach wend (nread f + p) - (nread f + p)) (items_to_copy self1)
  /\ Py.slice (Py.slice in0 p (p + n) ++ skipn (Z.to_nat n) out0) 0 n
     = Py.slice stream (nread f + p) (nread f + p + n).
Proof.
  intros Hpos Hend Hp Hp' Hm in0 out0 n.
  assert (Hlen : Py.len in0 = wend - nread f)
    by (apply slice_length; lia).
  assert (Hn : n = Z.min (reach wend (nread f + p) - (nread f + p))
                         (items_to_copy self1)).
  { unfold n, copied, Py.min3, out0. rewrite Hlen, len_repeat. lia. }
  split; [exact Hn|].
  rewrite written_prefix by (rewrite slice_length; rewrite ?Hlen; lia).
  unfold in0. rewrite slice_of_suffix by lia.
  f_equal; lia.
Qed.

Lemma call_detect_any f wend tag :
  0 <= nread f -> nread f <= wend -> wend <= Py.len stream ->
  state (blk f) = SEARCHING ->
  0 <= packet_len (blk f) ->
  next_start (start_key (blk f)) (nread f) wend = Some tag ->
  call wend f
  = copy_from (reach wend (offset tag)) (blk f) (offset tag)
              (packet_len (blk f)) (written f).
Proof.
  intros Hpos Hlt Hend Hs Hpl Hsome.
  pose proof (next_start_found _ _ _ _ _ Hsome) as [Hrange _].
  unfold Trace.call.
  rewrite (general_work_detect _ _ _ _ tag Hs).
  2:{ rewrite first_start_next_start, slice_length by lia.
      now replace (nread f + (wend - nread f)) with wend by lia. }
  cbv zeta. cbn [nitems_read self' out0' consumed produced].
  set (self1 := PacketExtractor.mk _ _ COPYING _).
  destruct (call_copied_any f wend self1 (offset tag - nread f))
    as [Hn Hout]; try lia; [exact Hpl|].
  cbv zeta in Hn, Hout.
  set (n := copied _ _ _ _) in *.
  rewrite Hout. unfold Trace.copy_from.
  replace (nread f + (offset tag - nread f)) with (offset tag) in * by lia.
  cbn [items_to_copy self1] in Hn. rewrite <- Hn.
  f_equal. lia.
Qed.

Lemma call_copy_any f wend :
  0 <= nread f -> nread f <= wend -> wend <= Py.len stream ->
  state (blk f) = COPYING ->
  0 <= items_to_copy (blk f) ->
  call wend f
  = copy_from (reach wend (nread f)) (blk f) (nread f)
              (items_to_copy (blk f)) (written f).
Proof.
  intros Hpos Hlt Hend Hs Hm.
  unfold Trace.call.
  rewrite (general_work_copy _ _ _ _ Hs).
  cbv zeta. cbn [self' out0' consumed produced].
  destruct (call_copied_any f wend (blk f) 0) as [Hn Hout]; try lia.
  cbv zeta in Hn, Hout.
  set (n := copied _ _ _ _) in *.
  rewrite Z.add_0_l in Hout. rewrite Hout. unfold Trace.copy_from.
  replace (nread f + 0) with (nread f) in * by lia.
  rewrite <- Hn. reflexivity.
Qed.

(** What a copy leaves: a ready flow, a cursor between its start and the
    end it was given, and an output that has grown by what is no longer to
    be copied. *)
Lemma copy_from_account k self p m out :
  0 < packet_len self -> 0 <= p <= k -> k <= Py.len stream ->
  0 < m <= packet_len self ->
  let g := copy_from k self p m out in
  ready g /\ p <= nread g <= k /\ (p < k -> p < nread g)
  /\ packet_len (blk g) = packet_len self
  /\ start_key (blk g) = start_key self
  /\ Py.len (written g) + items_to_copy (blk g) = Py.len out + m.
Proof.
  intros Hpl Hp Hk Hm g. unfold g, Trace.copy_from, ready, Invariant.
  cbn [blk nread written items_to_copy packet_len start_key state].
  set (n := Z.min (k - p) m).
  assert (Hn : 0 <= n <= m /\ n <= k - p /\ (p < k -> 1 <= n))
    by (unfold n; lia).
  rewrite len_app, slice_length by lia.
  destruct (Z.eqb_spec (m - n) 0); repeat split; intros;
    try lia; try discriminate; reflexivity.
Qed.

(** One call, whatever the size of the output buffer. *)
Lemma call_account f wend :
  ready f -> nread f <= wend <= Py.len stream ->
  let g := call wend f in
  ready g /\ nread f <= nread g <= wend
  /\ ((0 < capacity)%nat -> nread f < wend -> nread f < nread g)
  /\ packet_len (blk g) = packet_len (blk f)
  /\ start_key (blk g) = start_key (blk f)
  /\ exists j, Py.len (written g) + items_to_copy (blk g)
               = Py.len (written f) + items_to_copy (blk f)
                 + j * packet_len (blk f).
Proof.
  intros (Hinv & Hpl & Hpos) Hw g. pose proof Hinv as [Hrange Hiff].
  unfold g. destruct (state (blk f)) eqn:Hs.
  - assert (Hitc : items_to_copy (blk f) = 0).
    { destruct (Z.eq_dec (items_to_copy (blk f)) 0) as [|Hne]; auto.
      assert (H : SEARCHING = COPYING) by (apply Hiff; lia).
      discriminate H. }
    destruct (next_start (start_key (blk f)) (nread f) wend) as [tag|] eqn:Hf.
    + pose proof (next_start_found _ _ _ _ _ Hf) as [Ht _].
      rewrite (call_detect_any f wend tag) by (assumption || lia).
      destruct (copy_from_account (reach wend (offset tag)) (blk f)
                  (offset tag) (packet_len (blk f)) (written f))
        as (Hr & Hb & Hstrict & Hl & Hk & Hacc); try lia.
      split; [exact Hr|]. split; [lia|].
      split; [intros; apply Z.le_lt_trans with (offset tag);
              [lia | apply Hstrict; lia]|].
      split; [exact Hl|]. split; [exact Hk|].
      exists 1. lia.
    + rewrite (call_idle stream tags capacity f wend) by (assumption || lia).
      unfold ready; cbn [blk nread written].
      split; [split; [exact Hinv | split; [exact Hpl | lia]]|].
      split; [lia|]. split; [intros; lia|].
      do 2 (split; [reflexivity|]).
      exists 0. lia.
  - assert (0 < items_to_copy (blk f)) by now apply Hiff.
    rewrite (call_copy_any f wend) by (assumption || lia).
    destruct (copy_from_account (reach wend (nread f)) (blk f)
                (nread f) (items_to_copy (blk f)) (written f))
      as (Hr & Hb & Hstrict & Hl & Hk & Hacc); try lia.
    split; [exact Hr|]. split; [lia|].
    split; [intros; apply Hstrict; lia|].
    split; [exact Hl|]. split; [exact Hk|].
    exists 0. lia.
Qed.

End AnyCapacity.

(* ------------------------------------------------------------------ *)
(** * What the calls write *)

Section WriteAccount.

Import Trace.

Variable stream : list byte.
Variable tags : list tag_t.
Variable capacity : nat.

Local Abbreviation run := (run stream tags capacity).
Local Abbreviation deliver := (deliver stream tags capacity).
Local Abbreviation deliver_all := (deliver_all stream tags capacity).

Lemma run_account fuel :
  forall wend f,
    ready f -> nread f <= wend <= Py.len stream ->
    let g := run fuel wend f in
    ready g /\ nread f <= nread g <= wend
    /\ packet_len (blk g) = packet_len (blk f)
    /\ exists j, Py.len (written g) + items_to_copy (blk g)
                 = Py.len (written f) + items_to_copy (blk f)
                   + j * packet_len (blk f).
Proof.
  induction fuel as [|fuel IH]; intros wend f Hr Hw; cbn [Trace.run].
  - split; [exact Hr|]. split; [lia|]. split; [reflexivity|].
    exists 0; lia.
  - destruct (Z.ltb_spec (nread f) wend) as [Hlt|Hge].
    + destruct (call_account stream tags capacity f wend Hr Hw)
        as (Hr1 & Hb1 & _ & Hl1 & _ & [j1 Hj1]).
      destruct (IH wend _ Hr1 ltac:(lia)) as (Hr2 & Hb2 & Hl2 & [j2 Hj2]).
      split; [exact Hr2|]. split; [lia|]. split; [congruence|].
      exists (j1 + j2). rewrite Hj2, Hj1, Hl1. lia.
    + split; [exact Hr|]. split; [lia|]. split; [reflexivity|].
      exists 0; lia.
Qed.

Lemma deliver_all_account ws :
  forall wstart f,
    ready f -> nread f <= wstart ->
    wstart + Py.len (concat ws) <= Py.len stream ->
    let g := deliver_all ws wstart f in
    ready g /\ packet_len (blk g) = packet_len (blk f)
    /\ exists j, Py.len (written g) + items_to_copy (blk g)
                 = Py.len (written f) + items_to_copy (blk f)
                   + j * packet_len (blk f).
Proof.
  induction ws as [|w ws IH]; intros wstart f Hr Hn Hw;
    cbn [Trace.deliver_all concat] in *.
  - split; [exact Hr|]. split; [reflexivity|]. exists 0; lia.
  - rewrite len_app in Hw.
    pose proof (len_nonneg w). pose proof (len_nonneg (concat ws)).
    destruct (run_account (Z.to_nat (wstart + Py.len w - nread f))
                (wstart + Py.len w) f Hr ltac:(lia))
      as (Hr1 & Hb1 & Hl1 & [j1 Hj1]).
    fold (deliver (wstart + Py.len w) f) in *.
    destruct (IH (wstart + Py.len w) _ Hr1 ltac:(lia) ltac:(lia))
      as (Hr2 & Hl2 & [j2 Hj2]).
    split; [exact Hr2|]. split; [congruence|].
    exists (j1 + j2). rewrite Hj2, Hj1, Hl1. lia.
Qed.

End WriteAccount.

(** The bytes copied plus the bytes still to copy are a whole number of
    packets, whatever the windows, the tags and the size of the output
    buffer. *)
Lemma trace_packet_aligned
        (stream : list byte) (tags : list tag_t) (capacity : nat)
        (ws : list (list byte)) (L : Z) :
  0 < L ->
  concat ws = stream ->
  let f := Trace.deliver_all stream tags capacity ws 0
                                 (Trace.start L) in
  (L | Py.len (Trace.written f) + items_to_copy (Trace.blk f))
  /\ 0 <= items_to_copy (Trace.blk f) <= L
  /\ (state (Trace.blk f) = SEARCHING -> (L | Py.len (Trace.written f))).
Proof.
  intros HL Hws f.
  destruct (deliver_all_account stream tags capacity ws 0 (Trace.start L))
    as (Hr & Hl & [j Hj]).
  - now apply start_ready.
  - simpl; lia.
  - rewrite Hws; lia.
  - fold f in Hr, Hl, Hj. simpl in Hl, Hj.
    destruct Hr as ([Hrange Hiff] & _ & _). rewrite Hl in Hrange.
    assert (Hdiv : (L | Py.len (Trace.written f)
                        + items_to_copy (Trace.blk f)))
      by (exists j; lia).
    split; [exact Hdiv|]. split; [exact Hrange|].
    intros Hs.
    assert (Hz : items_to_copy (Trace.blk f) = 0).
    { destruct (Z.eq_dec (items_to_copy (Trace.blk f)) 0) as [|Hne]; auto.
      assert (H : state (Trace.blk f) = COPYING) by (apply Hiff; lia).
      congruence. }
    now rewrite Hz, Z.add_0_r in Hdiv.
Qed.


(** A search that found a tag finds the same one from any later start that
    is not past it. *)
Lemma next_start_narrow tags sk a k b tag :
  Trace.next_start tags sk a b = Some tag ->
  a <= k <= offset tag ->
  Trace.next_start tags sk k b = Some tag.
Proof.
  unfold Trace.next_start.
  induction tags as [|t ts IH]; cbn [find]; [discriminate|].
  destruct (String.eqb (key t) sk);
    destruct (Z.leb_spec a (offset t)); destruct (Z.ltb_spec (offset t) b);
    destruct (Z.leb_spec k (offset t)); cbn [andb]; auto;
    try (intros; lia).
  intros Efound Hk. injection Efound as ->. lia.
Qed.

(** With packet length 0 the cursor never gets past a start tag. *)
Lemma trace_zero_packet_len_stalls
        (stream : list byte) (tags : list tag_t) (capacity fuel : nat)
        (f : Trace.flow) (wend : Z) (tag : tag_t) :
  packet_len (Trace.blk f) = 0 ->
  state (Trace.blk f) = SEARCHING ->
  items_to_copy (Trace.blk f) = 0 ->
  0 <= Trace.nread f -> wend <= Py.len stream ->
  Trace.next_start tags (start_key (Trace.blk f))
                       (Trace.nread f) wend = Some tag ->
  let g := Trace.run stream tags capacity fuel wend f in
  Trace.nread g <= offset tag /\ offset tag < wend
  /\ Trace.written g = Trace.written f
  /\ Trace.blk g = Trace.blk f.
Proof.
  revert f. induction fuel as [|n IH]; intros f Hpl Hs Hitc Hpos Hend Hf;
    pose proof (next_start_found _ _ _ _ _ Hf) as [Ht _];
    cbn [Trace.run].
  - repeat split; lia.
  - destruct (Z.ltb_spec (Trace.nread f) wend) as [Hlt|Hge]; [|lia].
    rewrite (call_detect_any stream tags capacity f wend tag)
      by (assumption || lia).
    set (g1 := Trace.copy_from _ _ _ _ _ _).
    assert (Hg1 : g1 = Trace.mk (Trace.blk f) (offset tag)
                                    (Trace.written f)).
    { unfold g1, Trace.copy_from. rewrite Hpl.
      rewrite Z.min_r by lia. rewrite Z.add_0_r, slice_empty by lia.
      rewrite app_nil_r. cbn [Z.sub Z.eqb].
      destruct (Trace.blk f) as [pl sk st itc]; simpl in *.
      now subst. }
    rewrite Hg1.
    destruct (IH (Trace.mk (Trace.blk f) (offset tag)
                               (Trace.written f)))
      as (H1 & H2 & H3 & H4); cbn [Trace.blk Trace.nread]; auto;
      try lia.
    apply next_start_narrow with (a := Trace.nread f); [exact Hf | lia].
Qed.


(* ------------------------------------------------------------------ *)
(** * A small output buffer against a large one *)

Section BoundedCapacity.

Import Trace.

Variable stream : list byte.
Variable tags : list tag_t.
Variables small large : nat.

Hypothesis room : (0 < small)%nat.
Hypothesis unbounded : Py.len stream <= Z.of_nat large.

(** A call with the small buffer, followed by calls with the large one,
    ends where calls with the large one alone end. *)
Lemma small_call_absorbed f wend f2 :
  ready f -> nread f < wend <= Py.len stream ->
  runs stream tags large wend (call stream tags small wend f) f2 ->
  runs stream tags large wend f f2.
Proof.
  intros Hr Hw Hruns. pose proof Hr as (Hinv & Hpl & Hpos).
  pose proof Hinv as [Hrange Hiff].
  assert (Hcopy : forall p m,
             nread f <= p < wend -> 0 < m <= packet_len (blk f) ->
             call stream tags large wend f
             = copy_from stream wend (blk f) p m (written f) ->
             call stream tags small wend f
             = copy_from stream (Z.min wend (p + Z.of_nat small))
                         (blk f) p m (written f) ->
             runs stream tags large wend f f2).
  { intros p m Hp Hm Hlarge Hsmall. rewrite Hsmall in Hruns.
    destruct (copy_from_split stream tags large unbounded
                (Z.min wend (p + Z.of_nat small)) wend (blk f) p m (written f))
      as [Heq | (Hat & Hlt & Heq)]; try lia.
    - apply runs_call; [lia|]. now rewrite Hlarge, <- Heq.
    - inversion Hruns as [g Hdone | g g' Hlt' Hnext]; subst; [lia|].
      apply runs_call; [lia|]. now rewrite Hlarge, <- Heq. }
  destruct (state (blk f)) eqn:Hs.
  - destruct (next_start tags (start_key (blk f)) (nread f) wend)
      as [tag|] eqn:Hf.
    + pose proof (next_start_found _ _ _ _ _ Hf) as [Ht _].
      apply (Hcopy (offset tag) (packet_len (blk f))); try lia.
      * apply call_detect; assumption || lia.
      * apply call_detect_any; assumption || lia.
    + apply runs_call; [lia|].
      rewrite (call_idle stream tags large f wend) by (assumption || lia).
      rewrite (call_idle stream tags small f wend) in Hruns
        by (assumption || lia).
      exact Hruns.
  - assert (0 < items_to_copy (blk f)) by now apply Hiff.
    apply (Hcopy (nread f) (items_to_copy (blk f))); try lia.
    + apply call_copy; assumption || lia.
    + apply call_copy_any; assumption || lia.
Qed.

Lemma runs_small_large wend f f' :
  runs stream tags small wend f f' ->
  ready f -> nread f <= wend <= Py.len stream ->
  runs stream tags large wend f f'.
Proof.
  induction 1 as [f Hdone | f f' Hlt _ IH]; intros Hr Hw.
  - now apply runs_done.
  - destruct (call_account stream tags small f wend Hr Hw)
      as (Hr1 & Hb1 & _).
    apply small_call_absorbed; [exact Hr | lia |].
    apply IH; [exact Hr1 | lia].
Qed.

(** With room for one byte every call moves the cursor, so the loop
    reaches the end of the window with the small buffer as well. *)
Lemma run_runs_small fuel wend f :
  ready f -> nread f <= wend <= Py.len stream ->
  (Z.to_nat (wend - nread f) <= fuel)%nat ->
  runs stream tags small wend f (run stream tags small fuel wend f).
Proof.
  revert f. induction fuel as [|fuel IH]; intros f Hr Hw Hfuel;
    cbn [Trace.run].
  - apply runs_done. lia.
  - destruct (Z.ltb_spec (nread f) wend) as [Hlt|Hge].
    + destruct (call_account stream tags small f wend Hr Hw)
        as (Hr1 & Hb1 & Hstrict & _).
      specialize (Hstrict room Hlt).
      apply runs_call; [exact Hlt|].
      apply IH; [exact Hr1 | lia | lia].
    + apply runs_done. exact Hge.
Qed.

Lemma deliver_small_large wend f :
  ready f -> nread f <= wend <= Py.len stream ->
  deliver stream tags small wend f = deliver stream tags large wend f.
Proof.
  intros Hr Hw.
  apply (runs_deterministic stream tags large wend f).
  - apply runs_small_large; [|exact Hr | exact Hw].
    apply run_runs_small; auto.
  - now apply deliver_runs.
Qed.

Lemma deliver_all_small_large ws :
  forall wstart f,
    ready f -> nread f = wstart ->
    wstart + Py.len (concat ws) <= Py.len stream ->
    deliver_all stream tags small ws wstart f
    = deliver_all stream tags large ws wstart f.
Proof.
  induction ws as [|w ws IH]; intros wstart f Hr Hn Hw;
    cbn [Trace.deliver_all concat] in *; [reflexivity|].
  rewrite len_app in Hw.
  pose proof (len_nonneg w). pose proof (len_nonneg (concat ws)).
  rewrite deliver_small_large by (assumption || lia).
  pose proof (deliver_runs stream tags large unbounded (wstart + Py.len w) f
                Hr ltac:(lia)) as Hruns.
  destruct (runs_facts stream tags large unbounded _ _ _ Hruns Hr ltac:(lia))
    as [Hr1 Hn1].
  apply IH; [exact Hr1 | exact Hn1 | lia].
Qed.

End BoundedCapacity.

(** Any windows with a small output buffer against one window with a
    large one. *)
Lemma trace_capacity_does_not_matter
        (stream : list byte) (tags : list tag_t) (ws : list (list byte))
        (L : Z) (small large : nat) :
  0 < L ->
  in_stream_order tags ->
  concat ws = stream ->
  (0 < small)%nat ->
  Py.len stream <= Z.of_nat large ->
  let f := Trace.deliver_all stream tags small ws 0 (Trace.start L) in
  f = Trace.deliver stream tags large (Py.len stream) (Trace.start L)
  /\ Trace.nread f = Py.len stream.
Proof.
  intros HL Hsorted Hws Hroom Hlarge f.
  pose proof (start_ready _ HL) as Hr.
  pose proof (len_nonneg stream) as Hlen.
  assert (Hf : f = Trace.deliver stream tags large (Py.len stream)
                                     (Trace.start L)).
  { unfold f.
    rewrite (deliver_all_small_large stream tags small large Hroom Hlarge)
      by (rewrite ?Hws; auto; simpl; lia).
    rewrite deliver_all_single by (rewrite ?Hws; auto; simpl; lia).
    now rewrite Hws, Z.add_0_l. }
  split; [exact Hf|]. rewrite Hf.
  assert (Hruns : Trace.runs stream tags large (Py.len stream)
                                 (Trace.start L)
                                 (Trace.deliver stream tags large
                                    (Py.len stream) (Trace.start L))).
  { apply deliver_runs; auto. simpl; lia. }
  apply runs_facts in Hruns; auto; [|simpl; lia].
  now destruct Hruns.
Qed.


(** The delivery of a window to a Searching block, by the next start tag
    of the window. *)
Lemma trace_extracts_packets
        (stream : list byte) (tags : list tag_t) (capacity : nat)
        (f : Trace.flow) (wend : Z) :
  Py.len stream <= Z.of_nat capacity ->
  Trace.ready f ->
  state (Trace.blk f) = SEARCHING ->
  Trace.nread f <= wend <= Py.len stream ->
  let deliver := Trace.deliver stream tags capacity wend in
  let L := packet_len (Trace.blk f) in
  match Trace.next_start tags (start_key (Trace.blk f))
                             (Trace.nread f) wend with
  | None => deliver f = Trace.mk (Trace.blk f) wend (Trace.written f)
  | Some tag =>
      let t := offset tag in
      if t + L <=? wend
      then deliver f
           = deliver (Trace.mk (Trace.blk f) (t + L)
                        (Trace.written f ++ Py.slice stream t (t + L)))
      else deliver f
           = Trace.mk (mk L (start_key (Trace.blk f)) COPYING
                              (t + L - wend))
                          wend
                          (Trace.written f ++ Py.slice stream t wend)
  end.
Proof.
  intros Hcap Hr Hs Hw deliver L.
  pose proof Hr as ([Hrange Hiff] & Hpl & Hpos).
  assert (Hitc : items_to_copy (Trace.blk f) = 0).
  { destruct (Z.eq_dec (items_to_copy (Trace.blk f)) 0) as [|Hne]; auto.
    assert (H : state (Trace.blk f) = COPYING) by (apply Hiff; lia).
    congruence. }
  assert (Hblk : mk L (start_key (Trace.blk f)) SEARCHING 0
                 = Trace.blk f).
  { unfold L. destruct (Trace.blk f); simpl in *. now subst. }
  pose proof (deliver_runs stream tags capacity Hcap wend f Hr Hw) as Hruns.
  fold (deliver f) in Hruns.
  destruct (Trace.next_start _ _ _ _) as [tag|] eqn:Hf.
  - pose proof (next_start_found _ _ _ _ _ Hf) as [Ht _].
    assert (Hcall : Trace.call stream tags capacity wend f
                    = Trace.copy_from stream wend (Trace.blk f)
                        (offset tag) L (Trace.written f))
      by (apply call_detect; assumption || lia).
    cbv zeta. destruct (Z.leb_spec (offset tag + L) wend) as [Hfit|Hcut].
    + set (g := Trace.mk _ _ _).
      assert (Hg : Trace.call stream tags capacity wend f = g).
      { rewrite Hcall. unfold Trace.copy_from, g.
        rewrite Z.min_r by lia. fold L.
        rewrite Z.sub_diag. cbn [Z.eqb]. now rewrite Hblk. }
      assert (Hrg : Trace.ready g).
      { unfold Trace.ready, g. cbn [Trace.blk Trace.nread].
        repeat split; try tauto; lia. }
      apply (runs_deterministic stream tags capacity wend f); [exact Hruns|].
      apply Trace.runs_call; [lia|]. rewrite Hg.
      apply deliver_runs; [exact Hcap | exact Hrg |].
      unfold g; cbn [Trace.nread]; lia.
    + apply (runs_deterministic stream tags capacity wend f); [exact Hruns|].
      apply Trace.runs_call; [lia|]. rewrite Hcall.
      unfold Trace.copy_from. rewrite Z.min_l by lia. fold L.
      replace (L - (wend - offset tag)) with (offset tag + L - wend) by lia.
      replace (offset tag + (wend - offset tag)) with wend by lia.
      destruct (Z.eqb_spec (offset tag + L - wend) 0); [lia|].
      apply Trace.runs_done. cbn [Trace.nread]. lia.
  - apply (runs_deterministic stream tags capacity wend f); [exact Hruns|].
    destruct (Z.eq_dec (Trace.nread f) wend) as [Heq|Hne].
    + replace (Trace.mk (Trace.blk f) wend (Trace.written f)) with f
        by (destruct f; simpl in *; now subst).
      apply Trace.runs_done. lia.
    + apply Trace.runs_call; [lia|].
      rewrite (call_idle stream tags capacity f wend) by (assumption || lia).
      apply Trace.runs_done. cbn [Trace.nread]. lia.
Qed.


(* ------------------------------------------------------------------ *)
(** * The batch transmitter *)

Section BatchFacts.

Import Batch_Transmission.

Local Abbreviation le_name := (fun a b : string => String.leb a b = true).

Lemma insert_sorted_perm x l : Permutation (PyStr.insert_sorted x l) (x :: l).
Proof.
  induction l as [|y l IH]; simpl; [reflexivity|].
  destruct (String.leb x y); [reflexivity|].
  rewrite IH. apply perm_swap.
Qed.

Lemma sorted_perm l : Permutation (PyStr.sorted l) l.
Proof.
  induction l as [|x l IH]; simpl; [reflexivity|].
  rewrite insert_sorted_perm. now constructor.
Qed.

Lemma insert_sorted_sorted x l :
  Sorted le_name l -> Sorted le_name (PyStr.insert_sorted x l).
Proof.
  induction 1 as [|y l Hs IH Hhd]; simpl; [repeat constructor|].
  destruct (String.leb x y) eqn:Hxy.
  - repeat constructor; assumption.
  - constructor; [exact IH|].
    assert (Hyx : String.leb y x = true)
      by (destruct (String.leb_total x y); congruence).
    destruct Hhd as [|z l Hyz]; simpl; [now constructor|].
    destruct (String.leb x z); now constructor.
Qed.

Lemma sorted_sorted l : Sorted le_name (PyStr.sorted l).
Proof.
  induction l as [|x l IH]; simpl; [constructor|].
  now apply insert_sorted_sorted.
Qed.

(** The loop body over the files still to send, without the messages. *)
Lemma transmit_schedule files :
  forall total i,
    total = i + Py.len files ->
    without_prints (transmit total i files)
    = schedule (map command_for files).
Proof.
  induction files as [|f rest IH]; intros total i Htotal; [reflexivity|].
  cbn [transmit map schedule].
  change (Py.len (f :: rest)) with (Z.of_nat (S (List.length rest))) in Htotal.
  cbn [app without_prints].
  destruct rest as [|g rest'].
  - destruct (Z.ltb_spec i (total - 1)) as [Hlt|Hge]; [simpl in Htotal; lia|].
    reflexivity.
  - destruct (Z.ltb_spec i (total - 1)) as [Hlt|Hge].
    + cbn [app without_prints].
      rewrite (IH total (i + 1)) by (unfold Py.len; lia).
      reflexivity.
    + exfalso. revert Htotal Hge. simpl List.length. lia.
Qed.

(** X12: when the input directory does not exist, or holds no name ending
    in [.bin], the script prints one message and stops: it runs no command
    and makes no pause. *)
Theorem batch_nothing_to_transmit fs :
  isdir fs INPUT_DIR = false
  \/ (forall f, In f (listdir fs INPUT_DIR) ->
                PyStr.endswith f ".bin" = false) ->
  without_prints (main fs) = []
  /\ (main fs = [Print (directory_not_found INPUT_DIR)]
      \/ main fs = [Print (no_bin_files INPUT_DIR)]).
Proof.
  intros H. unfold main.
  destruct (isdir fs INPUT_DIR) eqn:Hdir; cbn [negb].
  - destruct H as [H|H]; [discriminate|].
    assert (Hnil : filter (fun f => PyStr.endswith f ".bin")
                          (listdir fs INPUT_DIR) = []).
    { induction (listdir fs INPUT_DIR) as [|f l IH]; [reflexivity|].
      cbn [filter]. rewrite (H f) by (left; reflexivity).
      apply IH. intros g Hg. apply H. now right. }
    rewrite Hnil. cbn [PyStr.sorted]. split; [reflexivity | now right].
  - split; [reflexivity | now left].
Qed.

Lemma batch_nothing_to_transmit_witness :
  let fs := mk_fs (fun _ => true)
                  (fun _ => ["notes.txt"; "a.bin.bak"; "bin"]%string) in
  without_prints (main fs) = []
  /\ (main fs = [Print (directory_not_found INPUT_DIR)]
      \/ main fs = [Print (no_bin_files INPUT_DIR)]).
Proof.
  apply (batch_nothing_to_transmit
           (mk_fs (fun _ => true)
                  (fun _ => ["notes.txt"; "a.bin.bak"; "bin"]%string))).
  right. intros f [<-|[<-|[<-|[]]]]; reflexivity.
Defined.

(** X13: when the input directory exists, what the script does besides
    printing is to run the transmitter once per name of the directory that
    ends in [.bin], in ascending order of the names, each time as
    [python3 ./tx_packet.py --input_file=<directory>/<name>], with a pause
    of one second between two transmissions and none after the last. *)
Theorem batch_schedule fs :
  isdir fs INPUT_DIR = true ->
  exists packet_files,
    Permutation packet_files
                (filter (fun f => PyStr.endswith f ".bin")
                        (listdir fs INPUT_DIR))
    /\ Sorted le_name packet_files
    /\ without_prints (main fs) = schedule (map command_for packet_files).
Proof.
  intros Hdir.
  exists (PyStr.sorted (filter (fun f => PyStr.endswith f ".bin")
                                (listdir fs INPUT_DIR))).
  split; [apply sorted_perm|]. split; [apply sorted_sorted|].
  unfold main. rewrite Hdir. cbn [negb].
  destruct (PyStr.sorted _) as [|f rest] eqn:Hfiles; [reflexivity|].
  cbn [app without_prints].
  replace (without_prints (transmit (Py.len (f :: rest)) 0 (f :: rest)
                             ++ [Print complete]))
    with (without_prints (transmit (Py.len (f :: rest)) 0 (f :: rest))).
  - apply transmit_schedule. lia.
  - generalize (transmit (Py.len (f :: rest)) 0 (f :: rest)).
    induction l as [|e l IH]; [reflexivity|].
    destruct e; cbn [app without_prints]; now rewrite ?IH.
Qed.

Lemma batch_schedule_witness :
  let fs := mk_fs (fun _ => true)
                  (fun _ => ["p2.bin"; "readme"; "p10.bin"; "p1.bin"]%string) in
  exists packet_files,
    Permutation packet_files
                (filter (fun f => PyStr.endswith f ".bin")
                        (listdir fs INPUT_DIR))
    /\ Sorted le_name packet_files
    /\ without_prints (main fs) = schedule (map command_for packet_files).
Proof.
  apply (batch_schedule
           (mk_fs (fun _ => true)
                  (fun _ => ["p2.bin"; "readme"; "p10.bin"; "p1.bin"]%string))).
  reflexivity.
Defined.

(** The run the witness above is about: [p10.bin] goes out before
    [p2.bin], as the names compare as strings. *)
Example batch_example :
  without_prints
    (main (mk_fs (fun _ => true)
                 (fun _ => ["p2.bin"; "readme"; "p10.bin"; "p1.bin"]%string)))
  = [Run ["python3"; "./tx_packet.py";
          "--input_file=./iraq/iraq/image_packets/p1.bin"]%string;
     Sleep 1;
     Run ["python3"; "./tx_packet.py";
          "--input_file=./iraq/iraq/image_packets/p10.bin"]%string;
     Sleep 1;
     Run ["python3"; "./tx_packet.py";
          "--input_file=./iraq/iraq/image_packets/p2.bin"]%string].
Proof. vm_compute. reflexivity. Qed.

End BatchFacts.

(* ------------------------------------------------------------------ *)
(** * The sync word as a bit string *)

Section SyncWordFacts.

Import PyStr.

Lemma all_ascii_complete c : In c all_ascii.
Proof.
  unfold all_ascii. rewrite <- (ascii_nat_embedding c).
  apply in_map, in_seq. pose proof (nat_ascii_bounded c). lia.
Qed.

(** Checked on all 256 x 256 pairs of characters: two hexadecimal digits
    are read as the byte they spell. *)
Lemma two_digits_checked :
  forallb (fun a => forallb (fun b =>
    negb (is_hex_digit a && is_hex_digit b)
    || match int16 (String a (String b EmptyString)) with
       | Py.Returns v =>
           (v =? hex_value 0 (String a (String b EmptyString)))
           && (0 <=? v) && (v <? 256)
       | Py.Raises _ => false
       end) all_ascii) all_ascii = true.
Proof. vm_compute. reflexivity. Qed.

(** Checked on all characters: a single hexadecimal digit is read as its
    value. *)
Lemma one_digit_checked :
  forallb (fun a =>
    negb (is_hex_digit a)
    || match int16 (String a EmptyString) with
       | Py.Returns v =>
           (v =? hex_value 0 (String a EmptyString)) && (0 <=? v) && (v <? 256)
       | Py.Raises _ => false
       end) all_ascii = true.
Proof. vm_compute. reflexivity. Qed.

(** Checked on all bytes: the format gives eight bits that spell the
    byte. *)
Lemma format_byte_checked :
  forallb (fun v =>
    (String.length (format_08b v) =? 8)%nat
    && all_chars is_bit (format_08b v)
    && (bits_value 0 (format_08b v) =? v)) (map Z.of_nat (seq 0 256)) = true.
Proof. vm_compute. reflexivity. Qed.

Lemma two_digits a b :
  is_hex_digit a = true -> is_hex_digit b = true ->
  exists v, int16 (String a (String b EmptyString)) = Py.Returns v
            /\ v = hex_value 0 (String a (String b EmptyString))
            /\ 0 <= v < 256.
Proof.
  intros Ha Hb. pose proof two_digits_checked as H.
  rewrite forallb_forall in H. specialize (H a (all_ascii_complete a)).
  rewrite forallb_forall in H. specialize (H b (all_ascii_complete b)).
  rewrite Ha, Hb in H. cbn [andb negb orb] in H.
  destruct (int16 _) as [v|]; [|discriminate].
  exists v. rewrite !andb_true_iff in H. destruct H as [[H1 H2] H3].
  split; [reflexivity|]. split; lia.
Qed.

Lemma one_digit a :
  is_hex_digit a = true ->
  exists v, int16 (String a EmptyString) = Py.Returns v
            /\ v = hex_value 0 (String a EmptyString)
            /\ 0 <= v < 256.
Proof.
  intros Ha. pose proof one_digit_checked as H.
  rewrite forallb_forall in H. specialize (H a (all_ascii_complete a)).
  rewrite Ha in H. cbn [negb orb] in H.
  destruct (int16 _) as [v|]; [|discriminate].
  exists v. rewrite !andb_true_iff in H. destruct H as [[H1 H2] H3].
  split; [reflexivity|]. split; lia.
Qed.

Lemma format_byte v :
  0 <= v < 256 ->
  String.length (format_08b v) = 8%nat
  /\ all_chars is_bit (format_08b v) = true
  /\ bits_value 0 (format_08b v) = v.
Proof.
  intros Hv. pose proof format_byte_checked as H.
  rewrite forallb_forall in H. specialize (H v).
  rewrite !andb_true_iff in H. destruct H as [[H1 H2] H3].
  - apply in_map_iff. exists (Z.to_nat v). split; [lia|].
    apply in_seq. lia.
  - apply Nat.eqb_eq in H1. apply Z.eqb_eq in H3. auto.
Qed.

Lemma all_chars_app test s1 s2 :
  all_chars test (s1 ++ s2)%string
  = all_chars test s1 && all_chars test s2.
Proof.
  induction s1 as [|c s1 IH]; simpl; [reflexivity|].
  now rewrite IH, andb_assoc.
Qed.

Lemma length_app_string s1 s2 :
  String.length (s1 ++ s2)%string
  = (String.length s1 + String.length s2)%nat.
Proof. induction s1 as [|c s1 IH]; simpl; [reflexivity | now rewrite IH]. Qed.

Lemma bits_value_app s1 : forall acc s2,
  bits_value acc (s1 ++ s2)%string = bits_value (bits_value acc s1) s2.
Proof. induction s1 as [|c s1 IH]; intros; simpl; [reflexivity | apply IH]. Qed.

Lemma bits_value_shift s : forall acc,
  bits_value acc s = acc * 2 ^ Z.of_nat (String.length s) + bits_value 0 s.
Proof.
  induction s as [|c s IH]; intros acc.
  - simpl. lia.
  - cbn [bits_value String.length]. rewrite IH.
    rewrite (IH (2 * 0 + _)). rewrite Nat2Z.inj_succ, Z.pow_succ_r by lia.
    lia.
Qed.

Lemma bits_value_byte acc v :
  0 <= v < 256 -> bits_value acc (format_08b v) = 256 * acc + v.
Proof.
  intros Hv. destruct (format_byte v Hv) as (Hlen & _ & Hval).
  rewrite bits_value_shift, Hlen, Hval.
  change (2 ^ Z.of_nat 8) with 256. lia.
Qed.

Lemma hex_digits_to_bits hex :
  (all_chars is_hex_digit hex = true ->
   exists bits,
     sync_word_bits hex = Py.Returns bits
     /\ String.length bits = (8 * Nat.div2 (S (String.length hex)))%nat
     /\ all_chars is_bit bits = true
     /\ (Nat.even (String.length hex) = true ->
         forall acc, bits_value acc bits = hex_value acc hex))
  /\ forall a,
      all_chars is_hex_digit (String a hex) = true ->
      exists bits,
        sync_word_bits (String a hex) = Py.Returns bits
        /\ String.length bits
           = (8 * Nat.div2 (S (String.length (String a hex))))%nat
        /\ all_chars is_bit bits = true
        /\ (Nat.even (String.length (String a hex)) = true ->
            forall acc, bits_value acc bits = hex_value acc (String a hex)).
Proof.
  unfold sync_word_bits.
  induction hex as [|b hex [IH0 IH1]].
  - split.
    + intros _. exists EmptyString. repeat split.
    + intros a Ha. cbn [all_chars] in Ha. rewrite andb_true_r in Ha.
      destruct (one_digit a Ha) as (v & Hint & _ & Hv).
      destruct (format_byte v Hv) as (Hlen & Hbits & _).
      exists (format_08b v ++ EmptyString)%string.
      cbn [chunks2 join_bits]. rewrite Hint.
      rewrite length_app_string, all_chars_app, Hlen, Hbits.
      repeat split. intros Hodd. discriminate Hodd.
  - split; [exact (IH1 b)|].
    intros a Hall. cbn [all_chars] in Hall.
    apply andb_true_iff in Hall. destruct Hall as [Ha Hall].
    pose proof Hall as Hall'. cbn [all_chars] in Hall'.
    apply andb_true_iff in Hall'. destruct Hall' as [Hb Hrest].
    destruct (two_digits a b Ha Hb) as (v & Hint & Hval & Hv).
    destruct (format_byte v Hv) as (Hlen & Hbits & _).
    destruct (IH0 Hrest) as (bits & Hjoin & Hblen & Hbbits & Hbval).
    exists (format_08b v ++ bits)%string.
    cbn [chunks2 join_bits]. rewrite Hint, Hjoin.
    rewrite length_app_string, all_chars_app, Hlen, Hbits, Hblen, Hbbits.
    split; [reflexivity|]. split; [cbn [String.length Nat.div2]; lia|].
    split; [reflexivity|].
    intros Heven acc. cbn [String.length Nat.even] in Heven.
    rewrite bits_value_app, bits_value_byte, (Hbval Heven) by exact Hv.
    cbn [hex_value] in *. f_equal. lia.
Qed.

(** X14: for a sync word written as hexadecimal digits only, the
    expression yields a bit string: 8 bits for every two digits (and 8 for
    a last single digit), all of them 0 or 1, and, for an even number of
    digits, spelling the same number as the digits do, most significant bit
    first. *)
Theorem sync_word_bits_of_hex_digits hex :
  all_chars is_hex_digit hex = true ->
  exists bits,
    sync_word_bits hex = Py.Returns bits
    /\ String.length bits = (8 * Nat.div2 (S (String.length hex)))%nat
    /\ all_chars is_bit bits = true
    /\ (Nat.even (String.length hex) = true ->
        bits_value 0 bits = hex_value 0 hex).
Proof.
  intros Hall. destruct (proj1 (hex_digits_to_bits hex) Hall)
    as (bits & H1 & H2 & H3 & H4).
  exists bits. repeat split; auto.
Qed.

Lemma sync_word_bits_of_hex_digits_witness :
  exists bits,
    SYNC_WORD_BITS = Py.Returns bits
    /\ String.length bits = 64%nat
    /\ all_chars is_bit bits = true
    /\ (Nat.even (String.length SYNC_WORD_HEX) = true ->
        bits_value 0 bits = hex_value 0 SYNC_WORD_HEX).
Proof.
  apply (sync_word_bits_of_hex_digits SYNC_WORD_HEX). reflexivity.
Defined.

(** The bit string the receiver hands to its correlator. *)
Example SYNC_WORD_BITS_value :
  SYNC_WORD_BITS
  = Py.Returns
      "0111111001101101011101010111001101101000011000010111001001110010"%string.
Proof. vm_compute. reflexivity. Qed.

End SyncWordFacts.

Section SyncWordErrors.

Import PyStr.

Lemma int16_raises_value_error s exn :
  int16 s = Py.Raises exn -> exn = "ValueError"%string.
Proof.
  unfold int16.
  destruct (match lstrip s with
            | String "+" r => (false, r)
            | String "-" r => (true, r)
            | _ => (false, lstrip s)
            end) as [negative s2].
  destruct (match s2 with
            | String "0" (String x r) =>
                if Ascii.eqb x "x" || Ascii.eqb x "X"
                then match r with String "_" r' => r' | _ => r end
                else s2
            | _ => s2
            end) as [|c s3]; [congruence|].
  destruct (digit_value c); [|congruence].
  destruct (digits 0 false (String c s3)); congruence.
Qed.

(** Checked on all 256 x 256 pairs of characters: a pair with a foreign
    character is rejected. *)
Lemma foreign_pair_checked :
  forallb (fun a => forallb (fun b =>
    negb (is_foreign a || is_foreign b)
    || match int16 (String a (String b EmptyString)) with
       | Py.Returns _ => false
       | Py.Raises exn => String.eqb exn "ValueError"
       end) all_ascii) all_ascii = true.
Proof. vm_compute. reflexivity. Qed.

Lemma foreign_single_checked :
  forallb (fun a =>
    negb (is_foreign a)
    || match int16 (String a EmptyString) with
       | Py.Returns _ => false
       | Py.Raises exn => String.eqb exn "ValueError"
       end) all_ascii = true.
Proof. vm_compute. reflexivity. Qed.

Lemma foreign_pair a b :
  is_foreign a || is_foreign b = true ->
  int16 (String a (String b EmptyString)) = Py.Raises "ValueError".
Proof.
  intros Hf. pose proof foreign_pair_checked as H.
  rewrite forallb_forall in H. specialize (H a (all_ascii_complete a)).
  rewrite forallb_forall in H. specialize (H b (all_ascii_complete b)).
  rewrite Hf in H. cbn [negb orb] in H.
  destruct (int16 _) as [v|exn]; [discriminate|].
  apply String.eqb_eq in H. now subst.
Qed.

Lemma foreign_single a :
  is_foreign a = true ->
  int16 (String a EmptyString) = Py.Raises "ValueError".
Proof.
  intros Hf. pose proof foreign_single_checked as H.
  rewrite forallb_forall in H. specialize (H a (all_ascii_complete a)).
  rewrite Hf in H. cbn [negb orb] in H.
  destruct (int16 _) as [v|exn]; [discriminate|].
  apply String.eqb_eq in H. now subst.
Qed.

(** A failure further on fails the whole expression. *)
Lemma join_bits_raises_later c chunks :
  join_bits chunks = Py.Raises "ValueError" ->
  join_bits (c :: chunks) = Py.Raises "ValueError".
Proof.
  intros H. cbn [join_bits]. rewrite H.
  destruct (int16 c) as [v|exn] eqn:Hc; [reflexivity|].
  now rewrite (int16_raises_value_error _ _ Hc).
Qed.

Lemma foreign_character_raises hex :
  (some_char is_foreign hex = true ->
   sync_word_bits hex = Py.Raises "ValueError")
  /\ forall a,
      some_char is_foreign (String a hex) = true ->
      sync_word_bits (String a hex) = Py.Raises "ValueError".
Proof.
  unfold sync_word_bits.
  induction hex as [|b hex [IH0 IH1]].
  - split; [discriminate|].
    intros a Ha. cbn [some_char] in Ha. rewrite orb_false_r in Ha.
    cbn [chunks2 join_bits]. now rewrite (foreign_single a Ha).
  - split; [exact (IH1 b)|].
    intros a Hsome. cbn [some_char] in Hsome. cbn [chunks2].
    destruct (is_foreign a || is_foreign b) eqn:Hab.
    + cbn [join_bits]. now rewrite (foreign_pair a b Hab).
    + apply join_bits_raises_later, IH0.
      apply orb_false_iff in Hab. destruct Hab as [Ha Hb].
      now rewrite Ha, Hb in Hsome.
Qed.

(** X15: a sync word made of code points below 256 that holds a character
    which, in that range, [int] has no use for (anything but a hexadecimal
    digit 0-9 a-f A-F, a blank, a sign, an underscore or an x) makes the
    expression, and with it the construction of the receiver, end with
    [ValueError].  (Code points from 256 on are outside [string]: among
    them [int] also reads the decimal digits of other scripts.) *)
Theorem sync_word_with_foreign_character hex :
  some_char is_foreign hex = true ->
  sync_word_bits hex = Py.Raises "ValueError".
Proof. apply foreign_character_raises. Qed.

Lemma sync_word_with_foreign_character_witness :
  sync_word_bits "7e6D75736861727g" = Py.Raises "ValueError".
Proof.
  apply (sync_word_with_foreign_character "7e6D75736861727g"). reflexivity.
Defined.

End SyncWordErrors.

(* ------------------------------------------------------------------ *)
(** * Tags with other keys *)

(** X16: a call is blind to every tag whose key is not the start key:
    removing those tags from the stream changes nothing in what the call
    consumes, produces, writes or leaves as its state. *)
Theorem other_keys_are_ignored self inp in0 out0 :
  general_work self inp in0 out0
  = general_work self
      (mk_input (nitems_read inp)
                (filter (fun tag => String.eqb (key tag) (start_key self))
                        (stream_tags inp)))
      in0 out0.
Proof.
  set (inp' := mk_input _ _).
  assert (Hfirst : first_start self inp' in0 = first_start self inp in0).
  { unfold first_start, get_tags_in_window, inp'.
    cbn [nitems_read stream_tags].
    induction (stream_tags inp) as [|tag ts IH]; [reflexivity|].
    cbn [filter].
    destruct (String.eqb (key tag) (start_key self)) eqn:Hk; cbn [filter].
    - destruct ((nitems_read inp + 0 <=? offset tag)
                && (offset tag <? nitems_read inp + Py.len in0));
        cbn [find]; [now rewrite Hk | exact IH].
    - destruct ((nitems_read inp + 0 <=? offset tag)
                && (offset tag <? nitems_read inp + Py.len in0));
        cbn [find]; [now rewrite Hk | exact IH]. }
  destruct (state self) eqn:Hs.
  - destruct (first_start self inp in0) as [tag|] eqn:Hf.
    + rewrite (general_work_detect _ _ _ _ _ Hs Hf).
      rewrite (general_work_detect _ _ _ _ _ Hs Hfirst).
      reflexivity.
    + rewrite (general_work_idle _ _ _ _ Hs Hf).
      now rewrite (general_work_idle _ _ _ _ Hs Hfirst).
  - now rewrite !(general_work_copy _ _ _ _ Hs).
Qed.

(* ------------------------------------------------------------------ *)
(** * The runtime's loop and the calls it makes *)

Section Progress.

Variable stream : list byte.
Variable tags : list tag_t.
Variable capacity : nat.

(** What the runtime hands on downstream has no part in the calls it
    makes: block, cursor and bytes written go the way of [Trace]. *)
Lemma progress_call wend f :
  Scheduler.progress (Scheduler.call stream tags capacity wend f)
  = Trace.call stream tags capacity wend (Scheduler.progress f).
Proof. reflexivity. Qed.

Lemma progress_run fuel : forall wend f,
  Scheduler.progress (Scheduler.run stream tags capacity fuel wend f)
  = Trace.run stream tags capacity fuel wend (Scheduler.progress f).
Proof.
  induction fuel as [|fuel IH]; intros wend f; [reflexivity|].
  cbn [Scheduler.run Trace.run].
  change (Trace.nread (Scheduler.progress f)) with (Scheduler.nread f).
  destruct (Scheduler.nread f <? wend); [|reflexivity].
  now rewrite IH, progress_call.
Qed.

Lemma progress_deliver wend f :
  Scheduler.progress (Scheduler.deliver stream tags capacity wend f)
  = Trace.deliver stream tags capacity wend (Scheduler.progress f).
Proof. unfold Scheduler.deliver, Trace.deliver. apply progress_run. Qed.

Lemma progress_deliver_all ws : forall wstart f,
  Scheduler.progress (Scheduler.deliver_all stream tags capacity ws wstart f)
  = Trace.deliver_all stream tags capacity ws wstart (Scheduler.progress f).
Proof.
  induction ws as [|w ws IH]; intros wstart f; [reflexivity|].
  cbn [Scheduler.deliver_all Trace.deliver_all].
  now rewrite IH, progress_deliver.
Qed.

End Progress.

Lemma progress_fields f g :
  Scheduler.progress f = Scheduler.progress g ->
  Scheduler.blk f = Scheduler.blk g
  /\ Scheduler.nread f = Scheduler.nread g
  /\ Scheduler.written f = Scheduler.written g.
Proof. unfold Scheduler.progress. intros H. now injection H. Qed.

(** C2: what the runtime hands on downstream depends on how the stream is
    cut into windows.  A 12-byte stream with start tags at 2, 4 and 9,
    packet length 3 and a 12-byte output buffer: delivered in windows of 3,
    5 and 4 bytes, three calls get past the search and 36 bytes go
    downstream; delivered as one window, two calls do and 24 bytes go
    downstream.  The bytes the calls wrote are the same six payload bytes
    both times: the difference is the output buffer's size, which every
    call that gets past the search returns as its count of produced bytes
    (the slip of C7). *)
Theorem C2_windows_change_the_output :
  let stream := [x00; x01; x02; x03; x04; x05; x06; x07; x08; x09; x0a; x0b] in
  let tags := [mk_tag 2 "packet_start"; mk_tag 4 "packet_start";
               mk_tag 6 "rx_time"; mk_tag 9 "packet_start"] in
  let ws := [[x00; x01; x02]; [x03; x04; x05; x06; x07];
             [x08; x09; x0a; x0b]] in
  let windowed :=
    Scheduler.deliver_all stream tags 12 ws 0 (Scheduler.start 3) in
  let single := Scheduler.deliver stream tags 12 12 (Scheduler.start 3) in
  concat ws = stream
  /\ Scheduler.written windowed = [x02; x03; x04; x09; x0a; x0b]
  /\ Scheduler.written single = [x02; x03; x04; x09; x0a; x0b]
  /\ Scheduler.sink windowed
     = [x02] ++ repeat x00 11 ++ [x03; x04] ++ repeat x00 10
       ++ [x09; x0a; x0b] ++ repeat x00 9
  /\ Scheduler.sink single
     = [x02; x03; x04] ++ repeat x00 9 ++ [x09; x0a; x0b] ++ repeat x00 9
  /\ Scheduler.sink windowed <> Scheduler.sink single.
Proof.
  vm_compute. repeat split. discriminate.
Qed.

(** X7: a block with packet length 0 (which the constructor accepts) never
    gets past a start tag: however often the runtime calls it on a window
    that holds one, the read cursor stays at or before the tag, so the
    window is never consumed; the calls write no byte and leave the block
    as it was. *)
Theorem zero_packet_len_stalls
        (stream : list byte) (tags : list tag_t) (capacity fuel : nat)
        (f : Scheduler.flow) (wend : Z) (tag : tag_t) :
  packet_len (Scheduler.blk f) = 0 ->
  state (Scheduler.blk f) = SEARCHING ->
  items_to_copy (Scheduler.blk f) = 0 ->
  0 <= Scheduler.nread f -> wend <= Py.len stream ->
  Trace.next_start tags (start_key (Scheduler.blk f))
                   (Scheduler.nread f) wend = Some tag ->
  let g := Scheduler.run stream tags capacity fuel wend f in
  Scheduler.nread g <= offset tag /\ offset tag < wend
  /\ Scheduler.written g = Scheduler.written f
  /\ Scheduler.blk g = Scheduler.blk f.
Proof.
  intros Hpl Hs Hitc Hpos Hend Hf g.
  destruct (trace_zero_packet_len_stalls stream tags capacity fuel
              (Scheduler.progress f) wend tag Hpl Hs Hitc Hpos Hend Hf)
    as (H1 & H2 & H3 & H4).
  rewrite <- progress_run in H1, H3, H4. auto.
Qed.

Lemma zero_packet_len_stalls_witness :
  let stream := [x00; x01; x02; x03; x04; x05; x06; x07] in
  let tags := [mk_tag 2 "packet_start"] in
  let f := Scheduler.start 0 in
  let g := Scheduler.run stream tags 16 50 8 f in
  Scheduler.nread g <= 2 /\ 2 < 8
  /\ Scheduler.written g = Scheduler.written f
  /\ Scheduler.blk g = Scheduler.blk f.
Proof.
  apply (zero_packet_len_stalls
           [x00; x01; x02; x03; x04; x05; x06; x07]
           [mk_tag 2 "packet_start"] 16 50 (Scheduler.start 0) 8
           (mk_tag 2 "packet_start"));
    first [reflexivity | vm_compute; discriminate].
Defined.

(** X9: whatever the windows, the tags and the size of the output buffer,
    the bytes the calls have written plus the bytes still to copy are a
    whole number of packets, and remaining stays within 0..packet_len: what
    the block writes is a sequence of complete packet_len-byte payloads,
    followed by the begun payload only while the extractor is Copying. *)
Theorem output_is_packet_aligned
        (stream : list byte) (tags : list tag_t) (capacity : nat)
        (ws : list (list byte)) (L : Z) :
  0 < L ->
  concat ws = stream ->
  let f := Scheduler.deliver_all stream tags capacity ws 0
                                 (Scheduler.start L) in
  (L | Py.len (Scheduler.written f) + items_to_copy (Scheduler.blk f))
  /\ 0 <= items_to_copy (Scheduler.blk f) <= L
  /\ (state (Scheduler.blk f) = SEARCHING
      -> (L | Py.len (Scheduler.written f))).
Proof.
  intros HL Hws f.
  pose proof (trace_packet_aligned stream tags capacity ws L HL Hws) as H.
  cbv zeta in H.
  change (Trace.start L) with (Scheduler.progress (Scheduler.start L)) in H.
  rewrite <- progress_deliver_all in H. exact H.
Qed.

Lemma output_is_packet_aligned_witness :
  let stream := [x00; x01; x02; x03; x04; x05; x06; x07; x08; x09; x0a; x0b] in
  let tags := [mk_tag 2 "packet_start"; mk_tag 10 "packet_start"] in
  let ws := [[x00; x01; x02]; [x03; x04; x05; x06; x07; x08; x09; x0a; x0b]] in
  let f := Scheduler.deliver_all stream tags 2 ws 0 (Scheduler.start 3) in
  (3 | Py.len (Scheduler.written f) + items_to_copy (Scheduler.blk f))
  /\ 0 <= items_to_copy (Scheduler.blk f) <= 3
  /\ (state (Scheduler.blk f) = SEARCHING
      -> (3 | Py.len (Scheduler.written f))).
Proof.
  apply (output_is_packet_aligned
           [x00; x01; x02; x03; x04; x05; x06; x07; x08; x09; x0a; x0b]
           [mk_tag 2 "packet_start"; mk_tag 10 "packet_start"] 2
           [[x00; x01; x02]; [x03; x04; x05; x06; x07; x08; x09; x0a; x0b]] 3).
  - lia.
  - reflexivity.
Defined.

(** X10: what the calls of a delivery write, for a Searching block and an
    output buffer that never limits the copy.  With no start tag left in
    the window nothing is written and the window is consumed.  With the
    next start tag at offset t and the packet inside the window, the bytes
    written are stream[t : t + packet_len] and the search goes on right
    behind them, so that a tag inside the payload is passed over.  With the
    packet running past the end of the window, the bytes from t to the end
    are written and the block waits, Copying, for the rest. *)
Theorem delivery_extracts_packets
        (stream : list byte) (tags : list tag_t) (capacity : nat)
        (f : Scheduler.flow) (wend : Z) :
  Py.len stream <= Z.of_nat capacity ->
  Scheduler.ready f ->
  state (Scheduler.blk f) = SEARCHING ->
  Scheduler.nread f <= wend <= Py.len stream ->
  let after g :=
    Scheduler.progress (Scheduler.deliver stream tags capacity wend g) in
  let L := packet_len (Scheduler.blk f) in
  match Trace.next_start tags (start_key (Scheduler.blk f))
                         (Scheduler.nread f) wend with
  | None =>
      after f = Trace.mk (Scheduler.blk f) wend (Scheduler.written f)
  | Some tag =>
      let t := offset tag in
      if t + L <=? wend
      then after f
           = after (Scheduler.mk (Scheduler.blk f) (t + L)
                      (Scheduler.written f ++ Py.slice stream t (t + L))
                      (Scheduler.sink f))
      else after f
           = Trace.mk (mk L (start_key (Scheduler.blk f)) COPYING
                          (t + L - wend))
                      wend
                      (Scheduler.written f ++ Py.slice stream t wend)
  end.
Proof.
  intros Hcap Hr Hs Hw after L.
  pose proof (trace_extracts_packets stream tags capacity
                (Scheduler.progress f) wend Hcap Hr Hs Hw) as H.
  cbv zeta in H. subst after L. cbv beta.
  change (Trace.blk (Scheduler.progress f)) with (Scheduler.blk f) in H.
  change (Trace.nread (Scheduler.progress f)) with (Scheduler.nread f) in H.
  destruct (Trace.next_start _ _ _ _) as [tag|].
  - cbv zeta.
    destruct (offset tag + packet_len (Scheduler.blk f) <=? wend);
      rewrite !progress_deliver; exact H.
  - rewrite progress_deliver. exact H.
Qed.

Lemma delivery_extracts_packets_witness :
  let stream := [x00; x01; x02; x03; x04; x05; x06; x07; x08; x09; x0a; x0b] in
  let tags := [mk_tag 2 "packet_start"; mk_tag 4 "packet_start";
               mk_tag 9 "packet_start"] in
  let f := Scheduler.start 3 in
  let after g := Scheduler.progress (Scheduler.deliver stream tags 12 12 g) in
  after f
  = after (Scheduler.mk (Scheduler.blk f) (2 + 3)
             (Scheduler.written f ++ Py.slice stream 2 (2 + 3))
             (Scheduler.sink f)).
Proof.
  apply (delivery_extracts_packets
           [x00; x01; x02; x03; x04; x05; x06; x07; x08; x09; x0a; x0b]
           [mk_tag 2 "packet_start"; mk_tag 4 "packet_start";
            mk_tag 9 "packet_start"] 12 (Scheduler.start 3) 12).
  - vm_compute; discriminate.
  - apply start_ready; lia.
  - reflexivity.
  - split; vm_compute; discriminate.
Defined.

(** X11: neither the size of the output buffer nor the windows change what
    the calls write.  For tags in stream order and a positive packet
    length, delivering the stream in any windows with any output buffer of
    at least one byte consumes the whole stream and leaves the block in the
    same state, with the same bytes written, as delivering it in one
    window with a buffer that can take the whole stream. *)
Theorem output_capacity_does_not_matter
        (stream : list byte) (tags : list tag_t) (ws : list (list byte))
        (L : Z) (small large : nat) :
  0 < L ->
  in_stream_order tags ->
  concat ws = stream ->
  (0 < small)%nat ->
  Py.len stream <= Z.of_nat large ->
  let windowed :=
    Scheduler.deliver_all stream tags small ws 0 (Scheduler.start L) in
  let single :=
    Scheduler.deliver stream tags large (Py.len stream) (Scheduler.start L) in
  Scheduler.written windowed = Scheduler.written single
  /\ Scheduler.blk windowed = Scheduler.blk single
  /\ Scheduler.nread windowed = Py.len stream
  /\ Scheduler.nread single = Py.len stream.
Proof.
  intros HL Hsorted Hws Hroom Hlarge windowed single.
  destruct (trace_capacity_does_not_matter stream tags ws L small large
              HL Hsorted Hws Hroom Hlarge) as [Heq Hn].
  change (Trace.start L) with (Scheduler.progress (Scheduler.start L))
    in Heq, Hn.
  rewrite <- progress_deliver_all in Heq, Hn.
  rewrite <- progress_deliver in Heq.
  fold windowed in Heq, Hn. fold single in Heq.
  destruct (progress_fields _ _ Heq) as (Hb & Hnr & Hwr).
  change (Scheduler.nread windowed = Py.len stream) in Hn.
  repeat split; congruence.
Qed.

Lemma output_capacity_does_not_matter_witness :
  let stream := [x00; x01; x02; x03; x04; x05; x06; x07; x08; x09; x0a; x0b] in
  let tags := [mk_tag 2 "packet_start"; mk_tag 4 "packet_start";
               mk_tag 9 "packet_start"] in
  let ws := [[x00; x01; x02; x03]; [x04; x05; x06; x07; x08; x09; x0a; x0b]] in
  let windowed :=
    Scheduler.deliver_all stream tags 1 ws 0 (Scheduler.start 3) in
  let single := Scheduler.deliver stream tags 12 12 (Scheduler.start 3) in
  Scheduler.written windowed = Scheduler.written single
  /\ Scheduler.blk windowed = Scheduler.blk single
  /\ Scheduler.nread windowed = 12
  /\ Scheduler.nread single = 12.
Proof.
  apply (output_capacity_does_not_matter
           [x00; x01; x02; x03; x04; x05; x06; x07; x08; x09; x0a; x0b]
           [mk_tag 2 "packet_start"; mk_tag 4 "packet_start";
            mk_tag 9 "packet_start"]
           [[x00; x01; x02; x03]; [x04; x05; x06; x07; x08; x09; x0a; x0b]]
           3 1 12).
  - lia.
  - repeat constructor; simpl; lia.
  - reflexivity.
  - lia.
  - vm_compute; discriminate.
Defined.
